(** * Forward modelling for tesseroids: adaptive discretization and
      conversion to point masses ([harmonica/forward/tesseroid.py])

    The Python module is embedded function by function.  Conventions:

    - a NumPy [float64] is idealised as a real number ([R]); [np.sin],
      [np.cos], [np.arccos], [np.sqrt] are the functions of the Reals
      library and [np.radians x] is [x * PI / 180]; where the rounding
      decides what a property can say, [_split_tesseroid] is embedded a
      second time on binary64 floats (module [Binary64]), and a lemma
      that holds of the real numbers only says so;
    - a one dimensional array of six floats (a tesseroid) is the record
      [Tesseroid]; an array of shape [(n, 6)] is a [list Tesseroid] that is
      read and written by index; an array that the source mutates in place
      is threaded through the functions and returned;
    - a Python exception is the [Raise] case of [result]; the functions are
      compiled by Numba with its default error model, under which a float
      division by zero raises [ZeroDivisionError] (as it does in plain
      Python), so [/] with a divisor that may vanish is [fdiv];
    - an index outside of an array is modelled as Python's [IndexError];
    - the [while] loop of [_adaptive_discretization] takes a fuel argument;
      [None] means that the fuel ran out. *)

From Stdlib Require Import PrimFloat.
From Stdlib Require Import Reals Lra ZArith Lia String.
From stdpp Require Import base list list_numbers.

Local Open Scope Z_scope.
Local Open Scope R_scope.

(** ** Exceptions and results *)

Inductive exn : Type :=
| ValueError (msg : string)
| KeyError (key : string)
| OverflowError (msg : string)
| ZeroDivisionError
| IndexError.

Inductive result (A : Type) : Type :=
| Ok (a : A)
| Raise (e : exn).
Arguments Ok {A} a.
Arguments Raise {A} e.

(** Sequencing: [x ← m; k] runs [k] unless [m] raised. *)
#[global] Instance result_bind : MBind result := fun A B f m =>
  match m with
  | Ok a => f a
  | Raise e => Raise e
  end.

(** ** Scalars *)

(** [np.radians] *)
Definition radians (x : R) : R := x * PI / 180.

(** [x / y] on floats: a zero divisor raises. *)
Definition fdiv (x y : R) : result R :=
  if Req_dec_T y 0 then Raise ZeroDivisionError else Ok (x / y).

(** [x < y] on floats. *)
Definition Rltb (x y : R) : bool := if Rlt_dec x y then true else false.
Definition Rleb (x y : R) : bool := if Rle_dec x y then true else false.

(** ** Arrays *)

(** The position an integer index refers to: negative indices count from
    the end of the array. *)
Definition array_index {A : Type} (a : list A) (i : Z) : result nat :=
  let len := Z.of_nat (length a) in
  if ((0 <=? i) && (i <? len))%Z then Ok (Z.to_nat i)
  else if ((- len <=? i) && (i <? 0))%Z then Ok (Z.to_nat (i + len))
  else Raise IndexError.

(** [a[i]] *)
Definition getitem {A : Type} (a : list A) (i : Z) : result A :=
  idx ← array_index a i;
  match a !! idx with
  | Some v => Ok v
  | None => Raise IndexError
  end.

(** [a[i] = v] *)
Definition setitem {A : Type} (a : list A) (i : Z) (v : A) : result (list A) :=
  idx ← array_index a i;
  Ok (<[idx := v]> a).

(** [range(n)] *)
Definition range (n : Z) : list Z := seqZ 0 n.

(** [for x in xs: body], the loop's variables being the state [s]. *)
Fixpoint for_each {X St : Type} (xs : list X)
    (body : X -> St -> result St) (s : St) : result St :=
  match xs with
  | [] => Ok s
  | x :: xs' => s' ← body x s; for_each xs' body s'
  end.

(** ** Tesseroids and computation points *)

(** [w, e, s, n, bottom, top] *)
Record Tesseroid : Type := mkTesseroid {
  west : R;
  east : R;
  south : R;
  north : R;
  bottom : R;
  top : R
}.

(** [longitude, latitude, radius] *)
Record Coordinates : Type := mkCoordinates {
  longitude : R;
  latitude : R;
  radius : R
}.

(** ** The geometry of the split criterion *)

Definition _tesseroid_dimensions (tesseroid : Tesseroid) : R * R * R :=
  let 'mkTesseroid w e s n bottom top := tesseroid in
  let w := radians w in
  let e := radians e in
  let s := radians s in
  let n := radians n in
  let latitude_center := (n + s) / 2 in
  let l_lat := top * acos (sin n * sin s + cos n * cos s) in
  let l_lon :=
    top * acos (sin latitude_center ^ 2 + cos latitude_center ^ 2 * cos (e - w)) in
  let l_rad := top - bottom in
  (l_lon, l_lat, l_rad).

Definition _distance_tesseroid_point (coordinates : Coordinates)
    (tesseroid : Tesseroid) : R :=
  let 'mkCoordinates longitude latitude radius := coordinates in
  let 'mkTesseroid w e s n bottom top := tesseroid in
  let longitude_p := (w + e) / 2 in
  let latitude_p := (s + n) / 2 in
  let radius_p := (bottom + top) / 2 in
  let longitude := radians longitude in
  let latitude := radians latitude in
  let longitude_p := radians longitude_p in
  let latitude_p := radians latitude_p in
  let cosphi_p := cos latitude_p in
  let sinphi_p := sin latitude_p in
  let cosphi := cos latitude in
  let sinphi := sin latitude in
  let coslambda := cos (longitude_p - longitude) in
  let cospsi := sinphi_p * sinphi + cosphi_p * cosphi * coslambda in
  sqrt ((radius - radius_p) ^ 2 + 2 * radius * radius_p * (1 - cospsi)).

(** ** Splitting a tesseroid onto the stack *)

Definition _split_tesseroid (tesseroid : Tesseroid) (n_lon n_lat n_rad : Z)
    (stack : list Tesseroid) (stack_top : Z) : result (list Tesseroid * Z) :=
  let 'mkTesseroid w e s n bottom top := tesseroid in
  d_lon ← fdiv (e - w) (IZR n_lon);
  d_lat ← fdiv (n - s) (IZR n_lat);
  d_rad ← fdiv (top - bottom) (IZR n_rad);
  for_each (range n_lon) (fun i =>
    for_each (range n_lat) (fun j =>
      for_each (range n_rad) (fun k '(stack, stack_top) =>
        let stack_top := (stack_top + 1)%Z in
        stack ← setitem stack stack_top
                   (mkTesseroid
                      (w + d_lon * IZR i) (w + d_lon * IZR (i + 1))
                      (s + d_lat * IZR j) (s + d_lat * IZR (j + 1))
                      (bottom + d_rad * IZR k) (bottom + d_rad * IZR (k + 1)));
        Ok (stack, stack_top))))
    (stack, stack_top).

(** ** The adaptive discretization *)

(** The variables of the loop: the two arrays, [stack_top] and [n_splits]. *)
Record loop_state : Type := mkState {
  stack : list Tesseroid;
  small_tesseroids : list Tesseroid;
  stack_top : Z;
  n_splits : Z
}.

(** What an iteration ends with: the next iteration, or a [return] of
    [n_splits, error] (the state holds [n_splits] and the arrays). *)
Inductive step : Type :=
| Continue (st : loop_state)
| Return (st : loop_state) (error : Z).

(** The three split counts of a tesseroid (lines 319 to 329). *)
Definition split_counts (coordinates : Coordinates) (tesseroid : Tesseroid)
    (distance_size_ratio : R) (radial_discretization : bool)
    : result (Z * Z * Z) :=
  let '(l_lon, l_lat, l_rad) := _tesseroid_dimensions tesseroid in
  let distance := _distance_tesseroid_point coordinates tesseroid in
  r_lon ← fdiv distance l_lon;
  let n_lon := if Rltb r_lon distance_size_ratio then 2%Z else 1%Z in
  r_lat ← fdiv distance l_lat;
  let n_lat := if Rltb r_lat distance_size_ratio then 2%Z else 1%Z in
  r_rad ← fdiv distance l_rad;
  let n_rad :=
    if Rltb r_rad distance_size_ratio && radial_discretization
    then 2%Z else 1%Z in
  Ok (n_lon, n_lat, n_rad).

(** The body of the [while] loop. *)
Definition loop_body (coordinates : Coordinates) (distance_size_ratio : R)
    (radial_discretization : bool) (st : loop_state) : result step :=
  let 'mkState stack small_tesseroids stack_top n_splits := st in
  tesseroid ← getitem stack stack_top;
  let stack_top := (stack_top - 1)%Z in
  '(n_lon, n_lat, n_rad) ←
    split_counts coordinates tesseroid distance_size_ratio
      radial_discretization;
  if (1 <? n_lon * n_lat * n_rad)%Z then
    if (Z.of_nat (length stack) <? (stack_top + 1) + n_lon * n_lat * n_rad)%Z
    then Ok (Return (mkState stack small_tesseroids stack_top n_splits) (-1))
    else
      '(stack, stack_top) ←
        _split_tesseroid tesseroid n_lon n_lat n_rad stack stack_top;
      Ok (Continue (mkState stack small_tesseroids stack_top n_splits))
  else
    if (Z.of_nat (length small_tesseroids) <? n_splits + 1)%Z
    then Ok (Return (mkState stack small_tesseroids stack_top n_splits) (-2))
    else
      small_tesseroids ← setitem small_tesseroids n_splits tesseroid;
      Ok (Continue
            (mkState stack small_tesseroids stack_top (n_splits + 1)%Z)).

(** [while stack_top >= 0: ...] and the final [return n_splits, error]. *)
Fixpoint while_loop (fuel : nat) (coordinates : Coordinates)
    (distance_size_ratio : R) (radial_discretization : bool)
    (st : loop_state) : option (result (loop_state * Z)) :=
  match fuel with
  | O => None
  | S fuel' =>
      if (0 <=? stack_top st)%Z then
        match loop_body coordinates distance_size_ratio
                radial_discretization st with
        | Raise e => Some (Raise e)
        | Ok (Return st' error) => Some (Ok (st', error))
        | Ok (Continue st') =>
            while_loop fuel' coordinates distance_size_ratio
              radial_discretization st'
        end
      else Some (Ok (st, 0%Z))
  end.

(** The result holds the arrays as the call leaves them, [n_splits] (in
    the state) and [error]. *)
Definition _adaptive_discretization (fuel : nat) (coordinates : Coordinates)
    (tesseroid : Tesseroid) (distance_size_ratio : R)
    (stack small_tesseroids : list Tesseroid) (radial_discretization : bool)
    : option (result (loop_state * Z)) :=
  match setitem stack 0 tesseroid with
  | Raise e => Some (Raise e)
  | Ok stack =>
      while_loop fuel coordinates distance_size_ratio radial_discretization
        (mkState stack small_tesseroids 0 0)
  end.

(** ** Conversion of tesseroids to point masses *)

(** The array [point_masses] of shape [(3, n)], row by row. *)
Record PointMasses : Type := mkPointMasses {
  pm_longitude : list R;
  pm_latitude : list R;
  pm_radius : list R
}.

(** The variables that the loops of the converter update. *)
Record masses_state : Type := mkMasses {
  ms_point_masses : PointMasses;
  ms_weights : list R;
  mass_index : Z
}.

(** The body of the innermost loop (lines 211 to 226). *)
Definition point_mass_body (w e s n bottom top A_factor : R)
    (glq_nodes glq_weights : list R * list R * list R) (i j k : Z)
    (st : masses_state) : result masses_state :=
  let '(lon_nodes, lat_nodes, rad_nodes) := glq_nodes in
  let '(lon_weights, lat_weights, rad_weights) := glq_weights in
  let 'mkMasses (mkPointMasses row0 row1 row2) weights mass_index := st in
  lon_node ← getitem lon_nodes i;
  lat_node ← getitem lat_nodes j;
  rad_node ← getitem rad_nodes k;
  let longitude := 0.5 * (e - w) * lon_node + 0.5 * (e + w) in
  let latitude := 0.5 * (n - s) * lat_node + 0.5 * (n + s) in
  let radius := 0.5 * (top - bottom) * rad_node + 0.5 * (top + bottom) in
  let kappa := radius ^ 2 * cos (radians latitude) in
  row0 ← setitem row0 mass_index longitude;
  row1 ← setitem row1 mass_index latitude;
  row2 ← setitem row2 mass_index radius;
  lon_weight ← getitem lon_weights i;
  lat_weight ← getitem lat_weights j;
  rad_weight ← getitem rad_weights k;
  weights ← setitem weights mass_index
              (A_factor * kappa * lon_weight * lat_weight * rad_weight);
  Ok (mkMasses (mkPointMasses row0 row1 row2) weights (mass_index + 1)%Z).

(** The body of the loop over the tesseroids (lines 201 to 226). *)
Definition tesseroid_body (tesseroids : list Tesseroid)
    (glq_nodes glq_weights : list R * list R * list R) (i : Z)
    (st : masses_state) : result masses_state :=
  let '(lon_nodes, lat_nodes, rad_nodes) := glq_nodes in
  let lon_glq_degree := Z.of_nat (length lon_nodes) in
  let lat_glq_degree := Z.of_nat (length lat_nodes) in
  let rad_glq_degree := Z.of_nat (length rad_nodes) in
  '(mkTesseroid w e s n bottom top) ← getitem tesseroids i;
  let A_factor := 1 / 8 * radians (e - w) * radians (n - s) * (top - bottom) in
  for_each (range lon_glq_degree) (fun i =>
    for_each (range lat_glq_degree) (fun j =>
      for_each (range rad_glq_degree) (fun k =>
        point_mass_body w e s n bottom top A_factor glq_nodes glq_weights
          i j k)))
    st.

(** The arrays [point_masses] and [weights] are written in place: the
    result is their final contents. *)
Definition tesseroids_to_point_masses (tesseroids : list Tesseroid)
    (glq_nodes glq_weights : list R * list R * list R)
    (point_masses : PointMasses) (weights : list R)
    : result (PointMasses * list R) :=
  let mass_index := 0%Z in
  st ← for_each (range (Z.of_nat (length tesseroids)))
         (tesseroid_body tesseroids glq_nodes glq_weights)
         (mkMasses point_masses weights mass_index);
  Ok (ms_point_masses st, ms_weights st).

(** ** Sanity checks *)

Definition _check_tesseroid (tesseroid : Tesseroid) : result unit :=
  let 'mkTesseroid w e s n bottom top := tesseroid in
  if Rleb e w then
    Raise (ValueError
      "Invalid tesseroid. The west boundary must be lower than the east one.")
  else if Rleb n s then
    Raise (ValueError
      "Invalid tesseroid. The south boundary must be lower than the north one.")
  else if Rleb bottom 0 || Rleb top 0 then
    Raise (ValueError
      "Invalid tesseroid. The bottom and top radii must be greater than zero.")
  else if Rleb top bottom then
    Raise (ValueError
      "Invalid tesseroid. The bottom radius boundary must be lower than the top one.")
  else Ok tt.

Definition _check_point_outside_tesseroid (coordinates : Coordinates)
    (tesseroid : Tesseroid) : result unit :=
  let 'mkCoordinates longitude latitude radius := coordinates in
  let 'mkTesseroid w e s n bottom top := tesseroid in
  let inside_longitude := Rltb w longitude && Rltb longitude e in
  let inside_latitude := Rltb s latitude && Rltb latitude n in
  let inside_radius := Rltb bottom radius && Rltb radius top in
  if inside_longitude && inside_latitude && inside_radius then
    Raise (ValueError
      "Found computation point inside tesseroid. Computation points must be outside of tesseroids.")
  else Ok tt.

(** ** The entry point *)

Definition STACK_SIZE : Z := 100.
Definition MAX_DISCRETIZATIONS : Z := 100000.
Definition GLQ_DEGREES : Z * Z * Z := (2, 2, 2)%Z.
Definition DISTANCE_SIZE_RATII : list (string * R) :=
  [("potential"%string, 1); ("g_radial"%string, 2.5)].

(** A [dict] with string keys: [key in d] and [d[key]]. *)
Fixpoint dict_get {V : Type} (d : list (string * V)) (key : string)
    : option V :=
  match d with
  | [] => None
  | (k, v) :: d' => if String.eqb k key then Some v else dict_get d' key
  end.

Definition dict_getitem {V : Type} (d : list (string * V)) (key : string)
    : result V :=
  match dict_get d key with
  | Some v => Ok v
  | None => Raise (KeyError key)
  end.

Section Gravity.

(** What the module imports from the rest of the package and from NumPy:
    the kernels and the sum over the point masses of [point_mass.py], the
    gravitational constant, the Gauss-Legendre rule of a positive degree
    (nodes, weights), and the contents of a freshly allocated array of a
    given length. *)
Variable kernel : Type.
Variable kernel_potential kernel_g_radial : kernel.
Variable jit_point_masses_gravity :
  Coordinates -> list R -> list R -> list R -> list R -> kernel -> R.
Variable GRAVITATIONAL_CONST : R.
Variable leggauss_rule : Z -> list R * list R.
Variable empty_rows : nat -> list Tesseroid.
Variable empty_floats : nat -> list R.

Definition KERNELS : list (string * kernel) :=
  [("potential"%string, kernel_potential);
   ("g_radial"%string, kernel_g_radial)].

(** Modelled from the spec: [numpy.polynomial.legendre.leggauss] is not
    part of the sources; the rule generator fails with the invalid degree
    error if the degree is less than 1, and otherwise returns the nodes and
    the weights of that degree. *)
Definition leggauss (deg : Z) : result (list R * list R) :=
  if (deg <? 1)%Z then
    Raise (ValueError "deg must be a positive integer")
  else Ok (leggauss_rule deg).

(** [np.empty((n, 6))] and [np.empty(n)] *)
Definition np_empty_rows (n : Z) : result (list Tesseroid) :=
  if (n <? 0)%Z then Raise (ValueError "negative dimensions are not allowed")
  else Ok (empty_rows (Z.to_nat n)).

Definition np_empty (n : Z) : result (list R) :=
  if (n <? 0)%Z then Raise (ValueError "negative dimensions are not allowed")
  else Ok (empty_floats (Z.to_nat n)).

Definition glq_nodes_weights (glq_degrees : Z * Z * Z)
    : result (Z * (list R * list R * list R) * (list R * list R * list R)) :=
  let '(lon_degree, lat_degree, rad_degree) := glq_degrees in
  let n_nodes := (lon_degree * lat_degree * rad_degree)%Z in
  '(lon_node, lon_weights) ← leggauss lon_degree;
  '(lat_node, lat_weights) ← leggauss lat_degree;
  '(rad_node, rad_weights) ← leggauss rad_degree;
  let glq_nodes := (lon_node, lat_node, rad_node) in
  let glq_weights := (lon_weights, lat_weights, rad_weights) in
  Ok (n_nodes, glq_nodes, glq_weights).

(** Lines 134 to 154: what follows a discretization that did not overflow. *)
Definition gravity_of_leaves (coordinates : Coordinates) (density : R)
    (field : string) (glq_degrees : Z * Z * Z)
    (small_tesseroids : list Tesseroid) (n_splits : Z) : result R :=
  '(n_nodes, glq_nodes, glq_weights) ← glq_nodes_weights glq_degrees;
  let n_point_masses := (n_nodes * n_splits)%Z in
  row0 ← np_empty n_point_masses;
  row1 ← np_empty n_point_masses;
  row2 ← np_empty n_point_masses;
  weights ← np_empty n_point_masses;
  '(point_masses, weights) ←
    tesseroids_to_point_masses (take (Z.to_nat n_splits) small_tesseroids)
      glq_nodes glq_weights (mkPointMasses row0 row1 row2) weights;
  let 'mkPointMasses longitude_p latitude_p radius_p := point_masses in
  let masses := map (Rmult density) weights in
  kernel ← dict_getitem KERNELS field;
  let result :=
    jit_point_masses_gravity coordinates longitude_p latitude_p radius_p
      masses kernel in
  let result := result * GRAVITATIONAL_CONST in
  let result :=
    if String.eqb field "g_radial" then result * 100000 else result in
  Ok result.

Definition tesseroid_gravity (fuel : nat) (coordinates : Coordinates)
    (tesseroid : Tesseroid) (density : R) (field : string)
    (distance_size_ratii : list (string * R)) (glq_degrees : Z * Z * Z)
    (stack_size max_discretizations : Z)
    (three_dimensional_adaptive_discretization : bool)
    : option (result R) :=
  match dict_get KERNELS field with
  | None => Some (Raise (ValueError ("Gravity field " ++ field ++ " not recognized")))
  | Some _ =>
  match
    (distance_size_ratio ← dict_getitem distance_size_ratii field;
     _ ← _check_tesseroid tesseroid;
     _ ← _check_point_outside_tesseroid coordinates tesseroid;
     stack ← np_empty_rows stack_size;
     small_tesseroids ← np_empty_rows max_discretizations;
     Ok (distance_size_ratio, stack, small_tesseroids))
  with
  | Raise e => Some (Raise e)
  | Ok (distance_size_ratio, stack, small_tesseroids) =>
  match
    _adaptive_discretization fuel coordinates tesseroid distance_size_ratio
      stack small_tesseroids three_dimensional_adaptive_discretization
  with
  | None => None
  | Some (Raise e) => Some (Raise e)
  | Some (Ok (mkState _ small_tesseroids _ n_splits, error)) =>
      if (error =? -1)%Z then
        Some (Raise (OverflowError
          "Stack Overflow. Try to increase the stack size."))
      else if (error =? -2)%Z then
        Some (Raise (OverflowError
          "Small Tesseroids Overflow. Try to increase the maximum number of splits."))
      else
        Some (gravity_of_leaves coordinates density field glq_degrees
                small_tesseroids n_splits)
  end end end.

(** Lines 128 to 154: what the call does with the outcome of the
    discretization. *)
Definition after_discretization (c : Coordinates) (density : R)
    (field : string) (glq_degrees : Z * Z * Z)
    (outcome : option (result (loop_state * Z))) : option (result R) :=
  match outcome with
  | None => None
  | Some (Raise e) => Some (Raise e)
  | Some (Ok (st, error)) =>
      if (error =? -1)%Z then
        Some (Raise (OverflowError
          "Stack Overflow. Try to increase the stack size."))
      else if (error =? -2)%Z then
        Some (Raise (OverflowError
          "Small Tesseroids Overflow. Try to increase the maximum number of splits."))
      else
        Some (gravity_of_leaves c density field glq_degrees
                (small_tesseroids st) (n_splits st))
  end.

End Gravity.

(** ** The split on binary64 floats

    Over the reals the bounds that [_split_tesseroid] recomputes for an
    axis left whole are the bounds of the parent.  What the rounding makes
    of them is read off the same function on binary64 floats: [+], [-],
    [*] and [/] are the IEEE 754 operations, and an integer operand is
    converted to a float first, as NumPy and Numba do. *)
Module Binary64.

(** [w, e, s, n, bottom, top] *)
Record Tesseroid : Type := mkTesseroid {
  west : float;
  east : float;
  south : float;
  north : float;
  bottom : float;
  top : float
}.

(** The float of an integer (exact below [2 ^ 53]). *)
Fixpoint of_positive (p : positive) : float :=
  match p with
  | xH => 1
  | xO p' => 2 * of_positive p'
  | xI p' => 2 * of_positive p' + 1
  end%float.

Definition of_int (n : Z) : float :=
  match n with
  | Z0 => 0
  | Zpos p => of_positive p
  | Zneg p => - of_positive p
  end%float.

(** [x / y] on floats: a zero divisor, of either sign, raises. *)
Definition fdiv (x y : float) : result float :=
  if (y =? 0)%float then Raise ZeroDivisionError else Ok (x / y)%float.

Definition _split_tesseroid (tesseroid : Tesseroid) (n_lon n_lat n_rad : Z)
    (stack : list Tesseroid) (stack_top : Z) : result (list Tesseroid * Z) :=
  let 'mkTesseroid w e s n bottom top := tesseroid in
  d_lon ← fdiv (e - w) (of_int n_lon);
  d_lat ← fdiv (n - s) (of_int n_lat);
  d_rad ← fdiv (top - bottom) (of_int n_rad);
  for_each (range n_lon) (fun i =>
    for_each (range n_lat) (fun j =>
      for_each (range n_rad) (fun k '(stack, stack_top) =>
        let stack_top := (stack_top + 1)%Z in
        stack ← setitem stack stack_top
                   (mkTesseroid
                      (w + d_lon * of_int i) (w + d_lon * of_int (i + 1))
                      (s + d_lat * of_int j) (s + d_lat * of_int (j + 1))
                      (bottom + d_rad * of_int k)
                      (bottom + d_rad * of_int (k + 1)));
        Ok (stack, stack_top))))
    (stack, stack_top).

(** A tesseroid of two degrees by two degrees that reaches from deep in
    the mantle to the mean radius of the Earth; the two radii are the
    binary64 floats next to these decimals. *)
#[warnings="-inexact-float"]
Definition thick_tesseroid : Tesseroid :=
  mkTesseroid (-1) 1 (-1) 1 1049000.1 6371008.7714.


End Binary64.

(** ** The state of the loop: notions used by the properties *)

(** The loop's variables are within the arrays. *)
Definition wf_state (st : loop_state) : Prop :=
  (-1 <= stack_top st < Z.of_nat (length (stack st)))%Z
  /\ (0 <= n_splits st <= Z.of_nat (length (small_tesseroids st)))%Z.

(** The quantity that every iteration decreases: twice the free rows of
    [small_tesseroids] plus the free rows of the stack. *)
Definition measure (st : loop_state) : Z :=
  (2 * (Z.of_nat (length (small_tesseroids st)) - n_splits st)
   + (Z.of_nat (length (stack st)) - (stack_top st + 1)))%Z.

(** A number of iterations that the loop cannot exceed. *)
Definition iteration_bound (stack small_tesseroids : list Tesseroid) : nat :=
  length stack + 2 * length small_tesseroids.

(** [iterations c D radial st splits leaves st']: from the state [st] the
    loop reaches [st'] by [splits] iterations that split a tesseroid and
    [leaves] iterations that record a leaf. *)
Inductive iterations (c : Coordinates) (D : R) (radial : bool)
    (st : loop_state) : nat -> nat -> loop_state -> Prop :=
| iterations_none : iterations c D radial st 0 0 st
| iterations_leaf (splits leaves : nat) (st1 st2 : loop_state) :
    iterations c D radial st splits leaves st1 ->
    (0 <= stack_top st1)%Z ->
    loop_body c D radial st1 = Ok (Continue st2) ->
    n_splits st2 = (n_splits st1 + 1)%Z ->
    iterations c D radial st splits (S leaves) st2
| iterations_split (splits leaves : nat) (st1 st2 : loop_state) :
    iterations c D radial st splits leaves st1 ->
    (0 <= stack_top st1)%Z ->
    loop_body c D radial st1 = Ok (Continue st2) ->
    n_splits st2 = n_splits st1 ->
    iterations c D radial st (S splits) leaves st2.

(** One of the three dimensions of the tesseroid is zero: one of the
    divisions of lines 324 to 328 has a zero divisor. *)
Definition zero_axis_length (t : Tesseroid) : Prop :=
  let '(l_lon, l_lat, l_rad) := _tesseroid_dimensions t in
  l_lon = 0 \/ l_lat = 0 \/ l_rad = 0.

(** The loop is about to run an iteration from the state [st], and that
    iteration pops the tesseroid [t]. *)
Definition pops (st : loop_state) (t : Tesseroid) : Prop :=
  (0 <= stack_top st)%Z /\ stack st !! Z.to_nat (stack_top st) = Some t.

(** The leaf set that a call leaves: [small_tesseroids[:n_splits]]. *)
Definition leaf_set (st : loop_state) : list Tesseroid :=
  take (Z.to_nat (n_splits st)) (small_tesseroids st).

(** Two states of runs with arrays of different capacities that agree
    on everything the loop still reads: the indices and the live rows. *)
Definition same_run (st1 st2 : loop_state) : Prop :=
  stack_top st1 = stack_top st2
  /\ n_splits st1 = n_splits st2
  /\ (forall p : nat, (Z.of_nat p <= stack_top st1)%Z ->
        stack st1 !! p = stack st2 !! p)
  /\ (forall p : nat, (Z.of_nat p < n_splits st1)%Z ->
        small_tesseroids st1 !! p = small_tesseroids st2 !! p).




(** ** The children of a split *)

(** The child [(i, j, k)] as [_split_tesseroid] computes it. *)
Definition split_child (t : Tesseroid) (n_lon n_lat n_rad i j k : Z)
    : Tesseroid :=
  let d_lon := (east t - west t) / IZR n_lon in
  let d_lat := (north t - south t) / IZR n_lat in
  let d_rad := (top t - bottom t) / IZR n_rad in
  mkTesseroid
    (west t + d_lon * IZR i) (west t + d_lon * IZR (i + 1))
    (south t + d_lat * IZR j) (south t + d_lat * IZR (j + 1))
    (bottom t + d_rad * IZR k) (bottom t + d_rad * IZR (k + 1)).

(** The child [(i, j, k)] in the words of the specification: each bound
    is interpolated linearly, [lo + i * (hi - lo) / n]. *)
Definition interpolated_child (t : Tesseroid) (n_lon n_lat n_rad i j k : Z)
    : Tesseroid :=
  mkTesseroid
    (west t + IZR i * (east t - west t) / IZR n_lon)
    (west t + (IZR i + 1) * (east t - west t) / IZR n_lon)
    (south t + IZR j * (north t - south t) / IZR n_lat)
    (south t + (IZR j + 1) * (north t - south t) / IZR n_lat)
    (bottom t + IZR k * (top t - bottom t) / IZR n_rad)
    (bottom t + (IZR k + 1) * (top t - bottom t) / IZR n_rad).

(** ** The point masses in the words of the specification *)

(** The affine map of an unscaled node [u] to the interval [[lo, hi]]. *)
Definition affine (lo hi u : R) : R := 0.5 * (hi - lo) * u + 0.5 * (hi + lo).

(** The point mass of the leaf [t] at the nodes [(u_lon, u_lat, u_rad)]
    with the weights [(w_lon, w_lat, w_rad)]: longitude, latitude, radius
    and weight [A_factor * kappa * w_lon * w_lat * w_rad]. *)
Definition equivalent_point_mass (t : Tesseroid)
    (u_lon u_lat u_rad w_lon w_lat w_rad : R) : R * R * R * R :=
  let longitude := affine (west t) (east t) u_lon in
  let latitude := affine (south t) (north t) u_lat in
  let radius := affine (bottom t) (top t) u_rad in
  let A_factor :=
    1 / 8 * (radians (east t) - radians (west t))
    * (radians (north t) - radians (south t)) * (top t - bottom t) in
  let kappa := radius ^ 2 * cos (radians latitude) in
  (longitude, latitude, radius, A_factor * kappa * w_lon * w_lat * w_rad).

(** A column that holds the point mass [m]. *)
Definition column (m : R * R * R * R)
    : option R * option R * option R * option R :=
  let '(longitude, latitude, radius, weight) := m in
  (Some longitude, Some latitude, Some radius, Some weight).

(** The column written for the leaf [t] and the node indices [(i, j, k)]. *)
Definition mass_column (t : Tesseroid)
    (glq_nodes glq_weights : list R * list R * list R) (i j k : Z)
    (v : option R * option R * option R * option R) : Prop :=
  let '(lon_nodes, lat_nodes, rad_nodes) := glq_nodes in
  let '(lon_weights, lat_weights, rad_weights) := glq_weights in
  exists u_lon u_lat u_rad w_lon w_lat w_rad,
    lon_nodes !! Z.to_nat i = Some u_lon
    /\ lat_nodes !! Z.to_nat j = Some u_lat
    /\ rad_nodes !! Z.to_nat k = Some u_rad
    /\ lon_weights !! Z.to_nat i = Some w_lon
    /\ lat_weights !! Z.to_nat j = Some w_lat
    /\ rad_weights !! Z.to_nat k = Some w_rad
    /\ v = column (equivalent_point_mass t u_lon u_lat u_rad
                     w_lon w_lat w_rad).

(** ** Loops that fill an array from a moving index

    Both [_split_tesseroid] and [tesseroids_to_point_masses] are nests of
    [for] loops around a body that writes one cell and advances an index.
    A body is a [pusher m G] when, started with room for [m] cells at the
    index [pos], it succeeds, advances [pos] by [m], leaves every other
    cell alone and writes the [q]-th new cell as [G q] says. *)
Definition pusher {St V : Type} (pos cap : St -> Z)
    (cell : St -> nat -> option V) (m : Z) (G : Z -> V -> Prop)
    (body : St -> result St) : Prop :=
  forall st, (0 <= pos st)%Z -> (pos st + m <= cap st)%Z ->
    exists st', body st = Ok st'
      /\ pos st' = (pos st + m)%Z
      /\ cap st' = cap st
      /\ (forall p : nat,
            (Z.of_nat p < pos st \/ pos st + m <= Z.of_nat p)%Z ->
            cell st' p = cell st p)
      /\ (forall q v, (0 <= q < m)%Z -> G q v ->
            cell st' (Z.to_nat (pos st + q)) = Some v).

(** The cells written by [n] rounds of a body that writes [m] cells. *)
Definition rounds {V : Type} (n m : Z) (G : Z -> Z -> V -> Prop) (q : Z)
    (v : V) : Prop :=
  exists i r, (0 <= i < n)%Z /\ (0 <= r < m)%Z /\ q = (i * m + r)%Z /\ G i r v.

(** The stack as such an array: the next free row is [stack_top + 1]. *)
Definition stack_pos (st : list Tesseroid * Z) : Z := (snd st + 1)%Z.
Definition stack_cap (st : list Tesseroid * Z) : Z := Z.of_nat (length (fst st)).
Definition stack_cell (st : list Tesseroid * Z) (p : nat) : option Tesseroid :=
  fst st !! p.

(** The cells that the three loops write, in the order of the writes. *)
Definition split_cells (t : Tesseroid) (n_lon n_lat n_rad : Z)
    : Z -> Tesseroid -> Prop :=
  rounds n_lon (n_lat * (n_rad * 1))
    (fun i => rounds n_lat (n_rad * 1)
      (fun j => rounds n_rad 1
        (fun k _ v => v = split_child t n_lon n_lat n_rad i j k))).

(** The arrays of the converter as one array of point masses: the next
    free column is [mass_index], and the column [p] holds what the three
    rows of [point_masses] and [weights] hold at [p]. *)
Definition masses_cap (st : masses_state) : Z :=
  Z.of_nat
    (min (min (length (pm_longitude (ms_point_masses st)))
              (length (pm_latitude (ms_point_masses st))))
         (min (length (pm_radius (ms_point_masses st)))
              (length (ms_weights st)))).

Definition masses_cell (st : masses_state) (p : nat)
    : option (option R * option R * option R * option R) :=
  Some (pm_longitude (ms_point_masses st) !! p,
        pm_latitude (ms_point_masses st) !! p,
        pm_radius (ms_point_masses st) !! p,
        ms_weights st !! p).

(** The columns written for the leaf [t], in the order of the writes. *)
Definition leaf_columns (t : Tesseroid)
    (glq_nodes glq_weights : list R * list R * list R)
    : Z -> option R * option R * option R * option R -> Prop :=
  let '(lon_nodes, lat_nodes, rad_nodes) := glq_nodes in
  let L := Z.of_nat (length lon_nodes) in
  let M := Z.of_nat (length lat_nodes) in
  let K := Z.of_nat (length rad_nodes) in
  rounds L (M * (K * 1))
    (fun i => rounds M (K * 1)
      (fun j => rounds K 1
        (fun k _ => mass_column t glq_nodes glq_weights i j k))).

(** ** Notions used by the further properties *)

(** The bounds that [_check_tesseroid] accepts. *)
Definition well_formed (t : Tesseroid) : Prop :=
  west t < east t /\ south t < north t /\ 0 < bottom t /\ bottom t < top t.

(** The point is strictly within the six bounds. *)
Definition strictly_inside (c : Coordinates) (t : Tesseroid) : Prop :=
  (west t < longitude c /\ longitude c < east t)
  /\ (south t < latitude c /\ latitude c < north t)
  /\ (bottom t < radius c /\ radius c < top t).

(** One of the comparisons on which [_check_tesseroid] raises holds. *)
Definition malformed (t : Tesseroid) : Prop :=
  east t <= west t \/ north t <= south t
  \/ bottom t <= 0 \/ top t <= 0 \/ top t <= bottom t.

(** ** Sample inputs *)

Definition sample_tesseroid : Tesseroid := mkTesseroid (-1) 1 (-1) 1 1 2.
Definition sample_point_above : Coordinates := mkCoordinates 0 0 3.
Definition sample_point_far : Coordinates := mkCoordinates 0 0 100.
(** A tesseroid that goes around the globe: its longitudinal arc is zero. *)
Definition wrapped_tesseroid : Tesseroid := mkTesseroid 0 360 (-1) 1 1 2.

(** A tesseroid of two degrees by two degrees that reaches from deep in
    the mantle to the mean radius of the Earth, a point 629 km above it on
    its axis, and the four quarters that a split in longitude and latitude
    makes of it. *)
Definition thick_tesseroid : Tesseroid :=
  mkTesseroid (-1) 1 (-1) 1 1049000.1 6371008.7714.

(** The two halves of [sample_tesseroid] along the radius. *)
Definition sample_lower_half : Tesseroid := mkTesseroid (-1) 1 (-1) 1 1 (3 / 2).
Definition sample_upper_half : Tesseroid := mkTesseroid (-1) 1 (-1) 1 (3 / 2) 2.

(** The loop about to pop [sample_tesseroid] from a stack of two rows. *)
Definition sample_state : loop_state :=
  mkState [sample_tesseroid; sample_tesseroid] [sample_tesseroid] 0 0.

(** The entry point with stand-ins for what the module imports: a single
    kernel, a sum that is always zero, no quadrature nodes, and arrays
    that are allocated full of copies of one value. *)
Definition sample_gravity :=
  tesseroid_gravity unit tt tt (fun _ _ _ _ _ _ => 0) 1
    (fun _ => ([], [])) (fun n => replicate n sample_tesseroid)
    (fun n => replicate n 0).

(** A stand-in for the Gauss-Legendre rule: [deg] nodes at the centre,
    with weights that sum to 2. *)
Definition centre_rule (deg : Z) : list R * list R :=
  (replicate (Z.to_nat deg) 0, replicate (Z.to_nat deg) (2 / IZR deg)).

(** * Properties *)

(** ** Scalars, arrays and loops *)

Lemma fdiv_ok (x y : R) : y <> 0 -> fdiv x y = Ok (x / y).
Proof. intros Hy. unfold fdiv. destruct (Req_dec_T y 0); [contradiction | reflexivity]. Qed.

Lemma fdiv_zero (x : R) : fdiv x 0 = Raise ZeroDivisionError.
Proof. unfold fdiv. destruct (Req_dec_T 0 0); [reflexivity | contradiction]. Qed.

Lemma Rltb_true (x y : R) : x < y -> Rltb x y = true.
Proof. intros H. unfold Rltb. destruct (Rlt_dec x y); [reflexivity | contradiction]. Qed.

Lemma Rltb_false (x y : R) : y <= x -> Rltb x y = false.
Proof. intros H. unfold Rltb. destruct (Rlt_dec x y); [lra | reflexivity]. Qed.

Lemma Rleb_false (x y : R) : y < x -> Rleb x y = false.
Proof. intros H. unfold Rleb. destruct (Rle_dec x y); [lra | reflexivity]. Qed.

Lemma array_index_ok {A : Type} (a : list A) (i : Z) :
  (0 <= i < Z.of_nat (length a))%Z -> array_index a i = Ok (Z.to_nat i).
Proof.
  intros [H0 H1]. unfold array_index.
  apply Z.leb_le in H0. apply Z.ltb_lt in H1. rewrite H0, H1. reflexivity.
Qed.

Lemma setitem_ok {A : Type} (a : list A) (i : Z) (v : A) :
  (0 <= i < Z.of_nat (length a))%Z ->
  setitem a i v = Ok (<[Z.to_nat i := v]> a).
Proof. intros H. unfold setitem. rewrite array_index_ok by assumption. reflexivity. Qed.

Lemma getitem_ok {A : Type} (a : list A) (i : Z) (v : A) :
  (0 <= i)%Z -> a !! Z.to_nat i = Some v -> getitem a i = Ok v.
Proof.
  intros H0 Hv. unfold getitem.
  assert (Z.to_nat i < length a)%nat by (eapply lookup_lt_Some; eassumption).
  rewrite array_index_ok by lia. simpl. rewrite Hv. reflexivity.
Qed.

(** A [for] loop over [range n] that keeps an invariant. *)
Lemma for_range_invariant {St : Type} (P : Z -> St -> Prop) (n : Z)
    (body : Z -> St -> result St) (s : St) :
  (0 <= n)%Z ->
  P 0%Z s ->
  (forall i s0, (0 <= i < n)%Z -> P i s0 ->
     exists s1, body i s0 = Ok s1 /\ P (i + 1)%Z s1) ->
  exists s', for_each (range n) body s = Ok s' /\ P n s'.
Proof.
  intros Hn H0 Hstep. unfold range.
  assert (Hgen : forall (m : nat) (lo : Z) (s0 : St),
             (0 <= lo)%Z -> (lo + Z.of_nat m = n)%Z -> P lo s0 ->
             exists s', for_each (seqZ lo (Z.of_nat m)) body s0 = Ok s'
                        /\ P n s').
  { induction m as [| m IH]; intros lo s0 Hlo Hsum HP.
    - simpl. exists s0. split; [reflexivity |].
      replace n with lo by lia. assumption.
    - rewrite seqZ_cons by lia. simpl.
      destruct (Hstep lo s0) as (s1 & Hb & HP1); [lia | assumption |].
      rewrite Hb. simpl.
      replace (Z.pred (Z.of_nat (S m))) with (Z.of_nat m) by lia.
      apply IH; [lia | lia | ].
      replace (Z.succ lo) with (lo + 1)%Z by lia. assumption. }
  destruct (Hgen (Z.to_nat n) 0%Z s) as (s' & He & HP); [lia | lia | assumption |].
  rewrite Z2Nat.id in He by assumption. eauto.
Qed.

(** ** The geometry of the split criterion *)

(** C2.  For a well formed tesseroid the three dimensions are, with the
    angular bounds in radians and [latitude_center = (n + s) / 2]:
    [l_lon = top * arccos (sin² latitude_center
                           + cos² latitude_center * cos (e - w))],
    [l_lat = top * arccos (sin n * sin s + cos n * cos s)] and
    [l_rad = top - bottom]; both arcs are scaled by the top radius. *)
Theorem tesseroid_dimensions_formulas (t : Tesseroid) :
  west t < east t -> south t < north t -> 0 < bottom t < top t ->
  let w := west t * PI / 180 in
  let e := east t * PI / 180 in
  let s := south t * PI / 180 in
  let n := north t * PI / 180 in
  let latitude_center := (n + s) / 2 in
  _tesseroid_dimensions t =
    (top t * acos ((sin latitude_center)² + (cos latitude_center)² * cos (e - w)),
     top t * acos (sin n * sin s + cos n * cos s),
     top t - bottom t).
Proof.
  intros _ _ _. destruct t as [w e s n b tp]. cbn.
  unfold radians. rewrite !Rsqr_pow2. reflexivity.
Qed.

Lemma tesseroid_dimensions_formulas_witness :
  _tesseroid_dimensions sample_tesseroid =
    (2 * acos ((sin ((1 * PI / 180 + -1 * PI / 180) / 2))²
               + (cos ((1 * PI / 180 + -1 * PI / 180) / 2))²
                 * cos (1 * PI / 180 - -1 * PI / 180)),
     2 * acos (sin (1 * PI / 180) * sin (-1 * PI / 180)
               + cos (1 * PI / 180) * cos (-1 * PI / 180)),
     2 - 1).
Proof.
  apply (tesseroid_dimensions_formulas sample_tesseroid); simpl; lra.
Defined.

(** C3.  The distance of the split criterion is the chord between the
    observation point [(longitude_p, latitude_p, radius_p)] and the centre of
    the tesseroid (midpoints of the bounds), angles in radians. *)
Theorem distance_is_chord_to_center (longitude_p latitude_p radius_p : R)
    (t : Tesseroid) :
  let lambda := radians ((west t + east t) / 2) in
  let phi := radians ((south t + north t) / 2) in
  let r := (bottom t + top t) / 2 in
  let lambda_p := radians longitude_p in
  let phi_p := radians latitude_p in
  let cospsi :=
    sin phi_p * sin phi + cos phi_p * cos phi * cos (lambda_p - lambda) in
  _distance_tesseroid_point (mkCoordinates longitude_p latitude_p radius_p) t =
    sqrt ((r - radius_p) ^ 2 + 2 * r * radius_p * (1 - cospsi)).
Proof.
  destruct t as [w e s n b tp]. cbn. f_equal.
  replace (radians longitude_p - radians ((w + e) / 2))
    with (- (radians ((w + e) / 2) - radians longitude_p)) by ring.
  rewrite cos_neg. ring.
Qed.

(** ** Loops that fill an array from a moving index *)

Section Pusher.

Context {St V : Type}.
Variable pos : St -> Z.
Variable cap : St -> Z.
Variable cell : St -> nat -> option V.

Lemma pusher_for (n m : Z) (G : Z -> Z -> V -> Prop)
    (body : Z -> St -> result St) :
  (0 <= n)%Z -> (0 <= m)%Z ->
  (forall i, (0 <= i < n)%Z -> pusher pos cap cell m (G i) (body i)) ->
  pusher pos cap cell (n * m) (rounds n m G) (for_each (range n) body).
Proof.
  intros Hn Hm Hbody st Hpos Hcap.
  pose (P := fun (i : Z) (s : St) =>
    pos s = (pos st + i * m)%Z /\ cap s = cap st
    /\ (forall p : nat,
          (Z.of_nat p < pos st \/ pos st + i * m <= Z.of_nat p)%Z ->
          cell s p = cell st p)
    /\ (forall q v, (0 <= q < i * m)%Z -> rounds i m G q v ->
          cell s (Z.to_nat (pos st + q)) = Some v)).
  destruct (for_range_invariant P n body st) as (s' & Hrun & HP); [assumption | |  |].
  - unfold P. split; [lia |]. split; [reflexivity |]. split.
    + intros p _. reflexivity.
    + intros q v Hq. lia.
  - intros i s0 Hi (Hp0 & Hc0 & Hframe0 & Hcells0).
    destruct (Hbody i Hi s0) as (s1 & Hb & Hp1 & Hc1 & Hframe1 & Hcells1).
    { rewrite Hp0. nia. }
    { rewrite Hp0, Hc0. nia. }
    exists s1. split; [assumption |]. unfold P.
    split; [rewrite Hp1, Hp0; ring |]. split; [congruence |]. split.
    + intros p Hp. rewrite Hframe1, Hframe0; [reflexivity | nia | rewrite Hp0; nia].
    + intros q v Hq (i' & r & Hi' & Hr & -> & HG).
      destruct (Z.eq_dec i' i) as [-> | Hne].
      * replace (pos st + (i * m + r))%Z with (pos s0 + r)%Z by (rewrite Hp0; ring).
        apply Hcells1; assumption.
      * assert (i' < i)%Z by lia.
        rewrite Hframe1.
        -- apply Hcells0; [nia |]. exists i', r. repeat split; try lia; assumption.
        -- left. rewrite Hp0, Z2Nat.id by nia. nia.
  - exists s'. destruct HP as (Hp & Hc & Hframe & Hcells).
    split; [assumption |]. split; [rewrite Hp; ring |].
    split; [assumption |]. split; assumption.
Qed.

Lemma rounds_total (n m : Z) (G : Z -> Z -> V -> Prop) :
  (0 <= m)%Z ->
  (forall i r, (0 <= i < n)%Z -> (0 <= r < m)%Z -> exists v, G i r v) ->
  forall q, (0 <= q < n * m)%Z -> exists v, rounds n m G q v.
Proof.
  intros Hm HG q Hq.
  assert (0 < m)%Z.
  { destruct (Z.eq_dec m 0%Z) as [-> |]; [rewrite Z.mul_0_r in Hq |]; lia. }
  pose proof (Z.div_mod q m ltac:(lia)) as Hdm.
  pose proof (Z.mod_pos_bound q m ltac:(lia)) as Hmod.
  assert (0 <= q / m < n)%Z as Hdiv.
  { split; [apply Z.div_pos; lia |]. apply Z.div_lt_upper_bound; [lia | nia]. }
  destruct (HG (q / m)%Z (q mod m)%Z Hdiv Hmod) as [v Hv].
  exists v, (q / m)%Z, (q mod m)%Z. repeat split; try lia; assumption.
Qed.

End Pusher.

(** ** [_split_tesseroid] *)

Lemma push_row_pusher (row : Tesseroid) :
  pusher stack_pos stack_cap stack_cell 1 (fun _ v => v = row)
    (fun '(stack, stack_top) =>
       let stack_top := (stack_top + 1)%Z in
       stack ← setitem stack stack_top row;
       Ok (stack, stack_top)).
Proof.
  intros [stk tp]. unfold stack_pos, stack_cap, stack_cell. simpl.
  intros Hpos Hcap.
  rewrite setitem_ok by lia. simpl.
  eexists. split; [reflexivity |]. simpl.
  split; [reflexivity |]. split; [rewrite length_insert; reflexivity |]. split.
  - intros p Hp. apply list_lookup_insert_ne. lia.
  - intros q v Hq ->. replace (tp + 1 + q)%Z with (tp + 1)%Z by lia.
    apply list_lookup_insert_eq. lia.
Qed.

Lemma split_tesseroid_pusher (t : Tesseroid) (n_lon n_lat n_rad : Z)
    (stack : list Tesseroid) (stack_top : Z) :
  (0 < n_lon)%Z -> (0 < n_lat)%Z -> (0 < n_rad)%Z ->
  (-1 <= stack_top)%Z ->
  (stack_top + 1 + n_lon * n_lat * n_rad <= Z.of_nat (length stack))%Z ->
  exists stack',
    _split_tesseroid t n_lon n_lat n_rad stack stack_top
      = Ok (stack', (stack_top + n_lon * n_lat * n_rad)%Z)
    /\ length stack' = length stack
    /\ (forall p : nat,
          (Z.of_nat p <= stack_top
           \/ stack_top + 1 + n_lon * n_lat * n_rad <= Z.of_nat p)%Z ->
          stack' !! p = stack !! p)
    /\ (forall q v, (0 <= q < n_lon * n_lat * n_rad)%Z ->
          split_cells t n_lon n_lat n_rad q v ->
          stack' !! Z.to_nat (stack_top + 1 + q) = Some v).
Proof.
  intros Hlon Hlat Hrad Htop Hroom.
  destruct t as [w e s n b tp]. unfold _split_tesseroid.
  rewrite !fdiv_ok by (apply not_0_IZR; lia). simpl.
  match goal with
  | |- context [for_each (range n_lon) ?body _] =>
      assert (Hp : pusher stack_pos stack_cap stack_cell
                     (n_lon * (n_lat * (n_rad * 1)))
                     (split_cells (mkTesseroid w e s n b tp) n_lon n_lat n_rad)
                     (for_each (range n_lon) body))
  end.
  { unfold split_cells.
    apply pusher_for; [lia | nia |]. intros i Hi.
    apply pusher_for; [lia | lia |]. intros j Hj.
    apply pusher_for; [lia | lia |]. intros k Hk.
    apply push_row_pusher. }
  destruct (Hp (stack, stack_top)) as ([stack' top'] & Hrun & Hpos & Hcap & Hframe & Hcells).
  { unfold stack_pos. simpl. lia. }
  { unfold stack_pos, stack_cap. simpl. nia. }
  unfold stack_pos, stack_cap, stack_cell in *. simpl in *.
  exists stack'. rewrite Hrun.
  split; [f_equal; f_equal; nia |]. split; [lia |]. split.
  - intros p Hp'. apply Hframe. nia.
  - intros q v Hq Hc. apply Hcells; [nia | assumption].
Qed.

Lemma split_cells_at (t : Tesseroid) (n_lon n_lat n_rad i j k : Z) :
  (0 <= i < n_lon)%Z -> (0 <= j < n_lat)%Z -> (0 <= k < n_rad)%Z ->
  split_cells t n_lon n_lat n_rad ((i * n_lat + j) * n_rad + k)%Z
    (split_child t n_lon n_lat n_rad i j k).
Proof.
  intros Hi Hj Hk. unfold split_cells.
  exists i, (j * (n_rad * 1) + (k * 1 + 0))%Z.
  split; [assumption |]. split; [nia |]. split; [ring |].
  exists j, (k * 1 + 0)%Z.
  split; [assumption |]. split; [lia |]. split; [reflexivity |].
  exists k, 0%Z. split; [assumption |]. split; [lia |]. split; reflexivity.
Qed.


Lemma split_cells_total (t : Tesseroid) (n_lon n_lat n_rad q : Z) :
  (0 < n_lat)%Z -> (0 < n_rad)%Z ->
  (0 <= q < n_lon * n_lat * n_rad)%Z ->
  exists v, split_cells t n_lon n_lat n_rad q v.
Proof.
  intros Hlat Hrad Hq. unfold split_cells.
  apply rounds_total; [nia | | nia].
  intros i r1 Hi Hr1. apply rounds_total; [lia | | assumption].
  intros j r2 Hj Hr2. apply rounds_total; [lia | | assumption].
  intros k r3 Hk Hr3. eexists. reflexivity.
Qed.

Lemma split_child_interpolated (t : Tesseroid) (n_lon n_lat n_rad i j k : Z) :
  (0 < n_lon)%Z -> (0 < n_lat)%Z -> (0 < n_rad)%Z ->
  split_child t n_lon n_lat n_rad i j k
  = interpolated_child t n_lon n_lat n_rad i j k.
Proof.
  intros Hlon Hlat Hrad. unfold split_child, interpolated_child.
  assert (IZR n_lon <> 0) by (apply not_0_IZR; lia).
  assert (IZR n_lat <> 0) by (apply not_0_IZR; lia).
  assert (IZR n_rad <> 0) by (apply not_0_IZR; lia).
  rewrite !plus_IZR. f_equal; field; assumption.
Qed.

(** ** One iteration of the loop *)

Lemma split_counts_range (c : Coordinates) (t : Tesseroid) (D : R)
    (radial : bool) (n_lon n_lat n_rad : Z) :
  split_counts c t D radial = Ok (n_lon, n_lat, n_rad) ->
  (n_lon = 1 \/ n_lon = 2)%Z /\ (n_lat = 1 \/ n_lat = 2)%Z
  /\ (n_rad = 1 \/ n_rad = 2)%Z /\ (radial = false -> n_rad = 1%Z).
Proof.
  unfold split_counts.
  destruct (_tesseroid_dimensions t) as [[l_lon l_lat] l_rad].
  destruct (fdiv _ l_lon) as [r_lon |]; [simpl | discriminate].
  destruct (fdiv _ l_lat) as [r_lat |]; [simpl | discriminate].
  destruct (fdiv _ l_rad) as [r_rad |]; [simpl | discriminate].
  intros H. injection H as <- <- <-.
  destruct (Rltb r_lon D), (Rltb r_lat D), (Rltb r_rad D), radial; simpl;
    repeat split; auto; discriminate.
Qed.

Lemma loop_body_cases (c : Coordinates) (D : R) (radial : bool)
    (st : loop_state) :
  wf_state st -> (0 <= stack_top st)%Z ->
  exists t, stack st !! Z.to_nat (stack_top st) = Some t /\
    match split_counts c t D radial with
    | Raise e => loop_body c D radial st = Raise e
    | Ok (n_lon, n_lat, n_rad) =>
        let m := (n_lon * n_lat * n_rad)%Z in
        if (1 <? m)%Z then
          if (Z.of_nat (length (stack st)) <? stack_top st + m)%Z then
            loop_body c D radial st
            = Ok (Return (mkState (stack st) (small_tesseroids st)
                            (stack_top st - 1) (n_splits st)) (-1))
          else
            exists stack',
              loop_body c D radial st
              = Ok (Continue (mkState stack' (small_tesseroids st)
                                (stack_top st - 1 + m) (n_splits st)))
              /\ length stack' = length (stack st)
              /\ (forall p : nat, (Z.of_nat p < stack_top st)%Z ->
                    stack' !! p = stack st !! p)
              /\ (forall q v, (0 <= q < m)%Z ->
                    split_cells t n_lon n_lat n_rad q v ->
                    stack' !! Z.to_nat (stack_top st + q) = Some v)
        else
          if (Z.of_nat (length (small_tesseroids st)) <? n_splits st + 1)%Z
          then
            loop_body c D radial st
            = Ok (Return (mkState (stack st) (small_tesseroids st)
                            (stack_top st - 1) (n_splits st)) (-2))
          else
            loop_body c D radial st
            = Ok (Continue
                    (mkState (stack st)
                       (<[Z.to_nat (n_splits st) := t]> (small_tesseroids st))
                       (stack_top st - 1) (n_splits st + 1)))
    end.
Proof.
  destruct st as [stk small tp ns]. unfold wf_state. simpl.
  intros [Htp Hns] H0.
  destruct (lookup_lt_is_Some_2 stk (Z.to_nat tp)) as [t Ht]; [lia |].
  exists t. split; [assumption |].
  unfold loop_body. rewrite (getitem_ok stk tp t) by assumption. simpl.
  destruct (split_counts c t D radial) as [[[n_lon n_lat] n_rad] | e] eqn:Hsc;
    [simpl | reflexivity].
  apply split_counts_range in Hsc as (Hlon & Hlat & Hrad & _).
  replace (tp - 1 + 1 + n_lon * n_lat * n_rad)%Z
    with (tp + n_lon * n_lat * n_rad)%Z by ring.
  destruct (1 <? n_lon * n_lat * n_rad)%Z eqn:Hm.
  - destruct (Z.of_nat (length stk) <? tp + n_lon * n_lat * n_rad)%Z eqn:Hroom;
      [reflexivity |].
    apply Z.ltb_ge in Hroom.
    destruct (split_tesseroid_pusher t n_lon n_lat n_rad stk (tp - 1))
      as (stk' & Hrun & Hlen & Hframe & Hcells); try lia.
    exists stk'. rewrite Hrun. simpl.
    split; [reflexivity |]. split; [assumption |]. split.
    + intros p Hp. apply Hframe. lia.
    + intros q v Hq Hc.
      replace (tp + q)%Z with (tp - 1 + 1 + q)%Z by ring.
      apply Hcells; assumption.
  - destruct (Z.of_nat (length small) <? ns + 1)%Z eqn:Hroom; [reflexivity |].
    apply Z.ltb_ge in Hroom.
    rewrite setitem_ok by lia. reflexivity.
Qed.

(** An iteration that goes on either records a leaf or pushes children;
    either way the state stays within the arrays and the measure drops. *)
Lemma loop_body_progress (c : Coordinates) (D : R) (radial : bool)
    (st st' : loop_state) :
  wf_state st -> (0 <= stack_top st)%Z ->
  loop_body c D radial st = Ok (Continue st') ->
  wf_state st'
  /\ length (stack st') = length (stack st)
  /\ length (small_tesseroids st') = length (small_tesseroids st)
  /\ (measure st' < measure st)%Z
  /\ ((n_splits st' = n_splits st + 1 /\ stack_top st' = stack_top st - 1)%Z
      \/ (n_splits st' = n_splits st /\ stack_top st + 1 <= stack_top st')%Z).
Proof.
  intros Hwf H0 Hbody.
  destruct (loop_body_cases c D radial st Hwf H0) as (t & Ht & Hcases).
  destruct Hwf as [Htp Hns].
  destruct (split_counts c t D radial) as [[[n_lon n_lat] n_rad] | e] eqn:Hsc;
    [| congruence].
  apply split_counts_range in Hsc as (Hlon & Hlat & Hrad & _).
  cbv zeta in Hcases.
  destruct (1 <? n_lon * n_lat * n_rad)%Z eqn:Hm.
  - apply Z.ltb_lt in Hm.
    destruct (Z.of_nat (length (stack st)) <? _)%Z eqn:Hroom; [congruence |].
    apply Z.ltb_ge in Hroom.
    destruct Hcases as (stk' & Hrun & Hlen & _ & _).
    rewrite Hrun in Hbody. injection Hbody as <-.
    unfold wf_state, measure. simpl. rewrite Hlen.
    repeat split; lia.
  - destruct (Z.of_nat (length (small_tesseroids st)) <? _)%Z eqn:Hroom;
      [congruence |].
    apply Z.ltb_ge in Hroom.
    rewrite Hcases in Hbody. injection Hbody as <-.
    unfold wf_state, measure. simpl. rewrite length_insert.
    repeat split; lia.
Qed.

Lemma loop_body_raises (c : Coordinates) (D : R) (radial : bool)
    (st : loop_state) (e : exn) :
  wf_state st -> (0 <= stack_top st)%Z ->
  loop_body c D radial st = Raise e -> e = ZeroDivisionError.
Proof.
  intros Hwf H0 Hbody.
  destruct (loop_body_cases c D radial st Hwf H0) as (t & Ht & Hcases).
  destruct (split_counts c t D radial) as [[[n_lon n_lat] n_rad] | e'] eqn:Hsc.
  - cbv zeta in Hcases.
    destruct (1 <? _)%Z.
    + destruct (_ <? _)%Z; [congruence |].
      destruct Hcases as (stk' & Hrun & _). congruence.
    + destruct (_ <? _)%Z; congruence.
  - assert (e' = e) as -> by congruence.
    revert Hsc. unfold split_counts.
    destruct (_tesseroid_dimensions t) as [[l_lon l_lat] l_rad].
    unfold fdiv, mbind, result_bind.
    repeat (destruct (Req_dec_T _ 0); [congruence |]).
    intros Hsc. discriminate Hsc.
Qed.

Lemma loop_body_returns (c : Coordinates) (D : R) (radial : bool)
    (st st' : loop_state) (error : Z) :
  wf_state st -> (0 <= stack_top st)%Z ->
  loop_body c D radial st = Ok (Return st' error) ->
  (error = -1 \/ error = -2)%Z
  /\ n_splits st' = n_splits st
  /\ small_tesseroids st' = small_tesseroids st.
Proof.
  intros Hwf H0 Hbody.
  destruct (loop_body_cases c D radial st Hwf H0) as (t & Ht & Hcases).
  destruct (split_counts c t D radial) as [[[n_lon n_lat] n_rad] | e'] eqn:Hsc;
    [| congruence].
  cbv zeta in Hcases.
  destruct (1 <? _)%Z.
  - destruct (_ <? _)%Z.
    + rewrite Hcases in Hbody. injection Hbody as <- <-. simpl. auto.
    + destruct Hcases as (stk' & Hrun & _). congruence.
  - destruct (_ <? _)%Z; [| congruence].
    rewrite Hcases in Hbody. injection Hbody as <- <-. simpl. auto.
Qed.

(** The loop ends within [measure st + 1] tests of its condition. *)
Lemma while_loop_terminates (c : Coordinates) (D : R) (radial : bool)
    (fuel : nat) (st : loop_state) :
  wf_state st -> (measure st < Z.of_nat fuel)%Z ->
  exists r, while_loop fuel c D radial st = Some r
    /\ (r = Raise ZeroDivisionError
        \/ exists st' error, r = Ok (st', error)
             /\ (error = 0 \/ error = -1 \/ error = -2)%Z).
Proof.
  revert st. induction fuel as [| fuel IH]; intros st Hwf Hfuel.
  - destruct Hwf as [? ?]. unfold measure in Hfuel. lia.
  - simpl. destruct (0 <=? stack_top st)%Z eqn:Htop.
    + apply Z.leb_le in Htop.
      destruct (loop_body c D radial st) as [[st' | st' error] | e] eqn:Hbody.
      * destruct (loop_body_progress c D radial st st' Hwf Htop Hbody)
          as (Hwf' & _ & _ & Hdrop & _).
        apply IH; [assumption | lia].
      * apply loop_body_returns in Hbody as (Herr & _); try assumption.
        eexists. split; [reflexivity |]. right. exists st', error.
        split; [reflexivity | lia].
      * apply loop_body_raises in Hbody as ->; try assumption.
        eexists. split; [reflexivity |]. left. reflexivity.
    + eexists. split; [reflexivity |]. right. exists st, 0%Z.
      split; [reflexivity | lia].
Qed.

(** The call starts the loop on the input tesseroid alone. *)
Lemma adaptive_discretization_start (fuel : nat) (c : Coordinates)
    (t : Tesseroid) (D : R) (stk small : list Tesseroid) (radial : bool) :
  (0 < length stk)%nat ->
  _adaptive_discretization fuel c t D stk small radial
  = while_loop fuel c D radial (mkState (<[0%nat := t]> stk) small 0 0).
Proof.
  intros Hlen. unfold _adaptive_discretization.
  rewrite setitem_ok by lia. reflexivity.
Qed.

Lemma adaptive_discretization_returned (fuel : nat) (c : Coordinates)
    (t : Tesseroid) (D : R) (stk small : list Tesseroid) (radial : bool)
    (st : loop_state) (error : Z) :
  _adaptive_discretization fuel c t D stk small radial = Some (Ok (st, error)) ->
  (0 < length stk)%nat.
Proof.
  unfold _adaptive_discretization, setitem, array_index. simpl.
  destruct (0 <? Z.of_nat (length stk))%Z eqn:Hl.
  - apply Z.ltb_lt in Hl. intros _. lia.
  - destruct (- Z.of_nat (length stk) <=? 0)%Z; discriminate.
Qed.

Lemma start_wf (t : Tesseroid) (stk small : list Tesseroid) :
  (0 < length stk)%nat ->
  wf_state (mkState (<[0%nat := t]> stk) small 0 0).
Proof.
  intros Hlen. unfold wf_state. cbn [stack small_tesseroids stack_top n_splits].
  rewrite length_insert. lia.
Qed.

(** ** The criterion on tesseroids centred on the equator *)

Lemma PI_bounds : 3 < PI <= 4.
Proof. split; [pose proof PI2_3_2; lra | apply PI_4]. Qed.

(** The arcs of a tesseroid of two degrees by two degrees around the
    origin of the angles are both [top * PI / 90]. *)
Lemma dimensions_two_degrees (b tp : R) :
  _tesseroid_dimensions (mkTesseroid (-1) 1 (-1) 1 b tp)
  = (tp * (PI / 90), tp * (PI / 90), tp - b).
Proof.
  pose proof PI_bounds as Hpi.
  unfold _tesseroid_dimensions, radians.
  replace ((1 * PI / 180 + -1 * PI / 180) / 2) with 0 by field.
  rewrite sin_0, cos_0.
  replace (0 ^ 2 + 1 ^ 2 * cos (1 * PI / 180 - -1 * PI / 180))
    with (cos (PI / 90)) by (ring_simplify; f_equal; field).
  replace (sin (1 * PI / 180) * sin (-1 * PI / 180)
           + cos (1 * PI / 180) * cos (-1 * PI / 180))
    with (cos (1 * PI / 180 - -1 * PI / 180)) by (rewrite cos_minus; ring).
  replace (1 * PI / 180 - -1 * PI / 180) with (PI / 90) by field.
  rewrite acos_cos by lra. reflexivity.
Qed.

(** The distance from a point on the axis of such a tesseroid, above its
    centre, is the difference of the radii. *)
Lemma distance_on_axis (r w s b tp : R) :
  (b + tp) / 2 <= r ->
  _distance_tesseroid_point (mkCoordinates 0 0 r) (mkTesseroid (- w) w (- s) s b tp)
  = r - (b + tp) / 2.
Proof.
  intros Hr. unfold _distance_tesseroid_point, radians.
  replace ((- w + w) / 2 * PI / 180) with 0 by field.
  replace ((- s + s) / 2 * PI / 180) with 0 by field.
  replace (0 * PI / 180) with 0 by field.
  replace (0 - 0) with 0 by ring.
  rewrite sin_0, cos_0.
  replace ((r - (b + tp) / 2) ^ 2 + 2 * r * ((b + tp) / 2) * (1 - (0 * 0 + 1 * 1 * 1)))
    with ((r - (b + tp) / 2) * (r - (b + tp) / 2)) by ring.
  apply sqrt_square. lra.
Qed.

(** A point on the axis that is far enough never asks for an angular
    split; the radial split is decided by the ratio to the thickness. *)
Lemma split_counts_on_axis (r b tp D : R) (radial : bool) :
  0 < tp -> b < tp -> (b + tp) / 2 <= r ->
  4 * D * tp <= 90 * (r - (b + tp) / 2) ->
  split_counts (mkCoordinates 0 0 r) (mkTesseroid (-1) 1 (-1) 1 b tp) D radial
  = Ok (1%Z, 1%Z,
        if Rltb ((r - (b + tp) / 2) / (tp - b)) D && radial
        then 2%Z else 1%Z).
Proof.
  intros Htp Hb Hr Hfar. pose proof PI_bounds as Hpi.
  unfold split_counts. rewrite dimensions_two_degrees.
  replace (mkTesseroid (-1) 1 (-1) 1 b tp)
    with (mkTesseroid (- (1)) 1 (- (1)) 1 b tp) by reflexivity.
  rewrite distance_on_axis by assumption.
  assert (Harc : 0 < tp * (PI / 90)) by nra.
  rewrite !fdiv_ok by lra. simpl.
  assert (Hratio : D <= (r - (b + tp) / 2) / (tp * (PI / 90))).
  { apply Rmult_le_reg_r with (tp * (PI / 90)); [assumption |].
    replace ((r - (b + tp) / 2) / (tp * (PI / 90)) * (tp * (PI / 90)))
      with (r - (b + tp) / 2) by (field; lra).
    nra. }
  rewrite Rltb_false by assumption. reflexivity.
Qed.

(** The longitudinal arc of a tesseroid that spans 360 degrees is zero. *)
Lemma wrapped_arc_zero :
  fst (fst (_tesseroid_dimensions wrapped_tesseroid)) = 0.
Proof.
  unfold wrapped_tesseroid, _tesseroid_dimensions, radians. simpl.
  replace (360 * PI / 180 - 0 * PI / 180) with (2 * PI) by field.
  rewrite cos_2PI.
  match goal with
  | |- _ * acos ?x = 0 => replace x with 1
  end.
  - rewrite acos_1. ring.
  - match goal with
    | |- 1 = sin ?a * (sin ?a * 1) + cos ?a * (cos ?a * 1) * 1 =>
        pose proof (sin2_cos2 a) as H; unfold Rsqr in H; lra
    end.
Qed.

(** ** The criterion away from the axis *)









(** ** The split decision and the children *)

Lemma split_counts_defined (c : Coordinates) (t : Tesseroid) (D : R)
    (radial : bool) (l_lon l_lat l_rad : R) :
  _tesseroid_dimensions t = (l_lon, l_lat, l_rad) ->
  l_lon <> 0 -> l_lat <> 0 -> l_rad <> 0 ->
  let distance := _distance_tesseroid_point c t in
  split_counts c t D radial
  = Ok (if Rlt_dec (distance / l_lon) D then 2%Z else 1%Z,
        if Rlt_dec (distance / l_lat) D then 2%Z else 1%Z,
        if Rlt_dec (distance / l_rad) D
        then (if radial then 2%Z else 1%Z) else 1%Z).
Proof.
  intros Hdims Hlon Hlat Hrad distance. unfold split_counts.
  rewrite Hdims. fold distance. rewrite !fdiv_ok by assumption.
  cbn [mbind result_bind]. unfold Rltb.
  destruct (Rlt_dec (distance / l_lon) D), (Rlt_dec (distance / l_lat) D),
    (Rlt_dec (distance / l_rad) D), radial; reflexivity.
Qed.

(** C4.  In an iteration on the tesseroid [t] (whose axis lengths are not
    zero, so that the ratios exist), an axis gets the split count 2
    exactly when [distance / axis_length < D], the radial one only under
    [radial_discretization], and 1 otherwise.  When some count is 2 and the
    stack has room, the iteration replaces [t] by the
    [n_lon * n_lat * n_rad] children: the child [(i, j, k)] is pushed at
    the row-major rank [(i * n_lat + j) * n_rad + k] above the rows that
    were below [t], and its bounds are interpolated linearly. *)
Theorem split_iteration (c : Coordinates) (D : R) (radial : bool)
    (st : loop_state) (t : Tesseroid) (l_lon l_lat l_rad : R) :
  wf_state st -> (0 <= stack_top st)%Z ->
  stack st !! Z.to_nat (stack_top st) = Some t ->
  _tesseroid_dimensions t = (l_lon, l_lat, l_rad) ->
  l_lon <> 0 -> l_lat <> 0 -> l_rad <> 0 ->
  let distance := _distance_tesseroid_point c t in
  let n_lon := if Rlt_dec (distance / l_lon) D then 2%Z else 1%Z in
  let n_lat := if Rlt_dec (distance / l_lat) D then 2%Z else 1%Z in
  let n_rad :=
    if Rlt_dec (distance / l_rad) D
    then (if radial then 2%Z else 1%Z) else 1%Z in
  split_counts c t D radial = Ok (n_lon, n_lat, n_rad)
  /\ ((1 < n_lon * n_lat * n_rad)%Z ->
      (stack_top st + n_lon * n_lat * n_rad
       <= Z.of_nat (length (stack st)))%Z ->
      exists st',
        loop_body c D radial st = Ok (Continue st')
        /\ stack_top st' = (stack_top st - 1 + n_lon * n_lat * n_rad)%Z
        /\ n_splits st' = n_splits st
        /\ small_tesseroids st' = small_tesseroids st
        /\ (forall p : nat, (Z.of_nat p < stack_top st)%Z ->
              stack st' !! p = stack st !! p)
        /\ (forall i j k,
              (0 <= i < n_lon)%Z -> (0 <= j < n_lat)%Z ->
              (0 <= k < n_rad)%Z ->
              stack st' !! Z.to_nat
                             (stack_top st + ((i * n_lat + j) * n_rad + k))
              = Some (interpolated_child t n_lon n_lat n_rad i j k))).
Proof.
  intros Hwf H0 Ht Hdims Hlon Hlat Hrad distance n_lon n_lat n_rad.
  pose proof (split_counts_defined c t D radial _ _ _ Hdims Hlon Hlat Hrad)
    as Hsc.
  cbv zeta in Hsc. fold distance in Hsc. fold n_lon n_lat n_rad in Hsc.
  split; [exact Hsc |].
  intros Hm Hroom.
  destruct (loop_body_cases c D radial st Hwf H0) as (t' & Ht' & Hcases).
  assert (t' = t) as -> by congruence.
  rewrite Hsc in Hcases. cbv zeta in Hcases.
  apply split_counts_range in Hsc as (Hn1 & Hn2 & Hn3 & _).
  apply Z.ltb_lt in Hm. rewrite Hm in Hcases.
  assert (Hfit : (Z.of_nat (length (stack st))
                  <? stack_top st + n_lon * n_lat * n_rad)%Z = false)
    by (apply Z.ltb_ge; assumption).
  rewrite Hfit in Hcases.
  destruct Hcases as (stk' & Hrun & _ & Hframe & Hcells).
  eexists. split; [exact Hrun |].
  cbn [stack small_tesseroids stack_top n_splits].
  split; [reflexivity |]. split; [reflexivity |]. split; [reflexivity |].
  split; [exact Hframe |].
  intros i j k Hi Hj Hk.
  rewrite <- split_child_interpolated by lia.
  apply Hcells; [nia | apply split_cells_at; assumption].
Qed.

(** Seen from [sample_point_above] with a ratio between 1.5 and 16, the
    sample tesseroid is split along the radius only. *)
Lemma sample_above_counts (D : R) :
  3 / 2 < D <= 16 ->
  split_counts sample_point_above sample_tesseroid D true
  = Ok (1%Z, 1%Z, 2%Z).
Proof.
  intros HD. unfold sample_point_above, sample_tesseroid.
  rewrite split_counts_on_axis by lra.
  rewrite Rltb_true by lra. reflexivity.
Qed.

Lemma split_iteration_witness :
  exists st',
    loop_body sample_point_above 2 true sample_state = Ok (Continue st')
    /\ stack_top st' = 1%Z
    /\ stack st' !! 0%nat = Some (interpolated_child sample_tesseroid 1 1 2 0 0 0)
    /\ stack st' !! 1%nat = Some (interpolated_child sample_tesseroid 1 1 2 0 0 1).
Proof.
  pose proof PI_bounds as Hpi.
  destruct (split_iteration sample_point_above 2 true sample_state
              sample_tesseroid (2 * (PI / 90)) (2 * (PI / 90)) (2 - 1))
    as [Hsc Hpush].
  - unfold wf_state, sample_state. simpl. lia.
  - simpl. lia.
  - reflexivity.
  - apply dimensions_two_degrees.
  - lra.
  - lra.
  - lra.
  - rewrite sample_above_counts in Hsc by lra.
    match type of Hsc with
    | _ = Ok (?a, ?b, ?d) =>
        assert (a = 1%Z /\ b = 1%Z /\ d = 2%Z) as (E1 & E2 & E3)
          by (repeat split; congruence);
        rewrite ?E1, ?E2, ?E3 in Hpush
    end.
    destruct Hpush as (st' & Hrun & Htop & _ & _ & _ & Hcells);
      [lia | simpl; lia |].
    exists st'. split; [exact Hrun |]. split; [exact Htop |]. split.
    + apply (Hcells 0%Z 0%Z 0%Z); lia.
    + apply (Hcells 0%Z 0%Z 1%Z); lia.
Defined.

(** ** Termination *)

Lemma split_counts_wrapped (c : Coordinates) (D : R) (radial : bool) :
  split_counts c wrapped_tesseroid D radial = Raise ZeroDivisionError.
Proof.
  unfold split_counts. pose proof wrapped_arc_zero as H.
  destruct (_tesseroid_dimensions wrapped_tesseroid) as [[l_lon l_lat] l_rad].
  simpl in H. subst l_lon. rewrite fdiv_zero. reflexivity.
Qed.

Lemma discretization_wrapped (fuel : nat) (c : Coordinates) (D : R)
    (stack small : list Tesseroid) (radial : bool) :
  (0 < length stack)%nat ->
  _adaptive_discretization (S fuel) c wrapped_tesseroid D stack small radial
  = Some (Raise ZeroDivisionError).
Proof.
  intros Hlen. unfold _adaptive_discretization.
  rewrite setitem_ok by lia. simpl.
  unfold loop_body.
  rewrite (getitem_ok _ 0 wrapped_tesseroid);
    [| lia | apply list_lookup_insert_eq; assumption].
  simpl. rewrite split_counts_wrapped. reflexivity.
Qed.

(** The count of the iterations: the leaves recorded are [n_splits], and
    the tesseroids on the stack together with the leaves recorded exceed
    the splits, each split having put at least two tesseroids in the
    place of one. *)
Lemma iterations_count (c : Coordinates) (D : R) (radial : bool)
    (st0 st : loop_state) (splits leaves : nat) :
  wf_state st0 ->
  iterations c D radial st0 splits leaves st ->
  wf_state st
  /\ length (stack st) = length (stack st0)
  /\ length (small_tesseroids st) = length (small_tesseroids st0)
  /\ n_splits st = (n_splits st0 + Z.of_nat leaves)%Z
  /\ (stack_top st0 + n_splits st0 + Z.of_nat splits
      <= stack_top st + n_splits st)%Z.
Proof.
  intros Hwf0 Hit. induction Hit as
    [| splits leaves st1 st2 Hit IH H0 Hbody Hn
     | splits leaves st1 st2 Hit IH H0 Hbody Hn].
  - repeat split; try assumption; try lia; apply Hwf0.
  - destruct IH as (Hwf1 & Hl1 & Hl2 & Hleaves & Hsplits).
    destruct (loop_body_progress c D radial st1 st2 Hwf1 H0 Hbody)
      as (Hwf2 & Hs & Hm & _ & Hcase).
    split; [assumption |]. split; [congruence |]. split; [congruence |]. lia.
  - destruct IH as (Hwf1 & Hl1 & Hl2 & Hleaves & Hsplits).
    destruct (loop_body_progress c D radial st1 st2 Hwf1 H0 Hbody)
      as (Hwf2 & Hs & Hm & _ & Hcase).
    split; [assumption |]. split; [congruence |]. split; [congruence |]. lia.
Qed.

(** The split decision raises exactly on a zero dimension. *)
Lemma split_counts_raises (c : Coordinates) (t : Tesseroid) (D : R)
    (radial : bool) :
  split_counts c t D radial = Raise ZeroDivisionError <-> zero_axis_length t.
Proof.
  unfold split_counts, zero_axis_length.
  destruct (_tesseroid_dimensions t) as [[l_lon l_lat] l_rad].
  unfold fdiv.
  destruct (Req_dec_T l_lon 0) as [H1 | H1]; cbn [mbind result_bind];
    [split; auto |].
  destruct (Req_dec_T l_lat 0) as [H2 | H2]; cbn [mbind result_bind];
    [split; auto |].
  destruct (Req_dec_T l_rad 0) as [H3 | H3]; cbn [mbind result_bind];
    [split; auto |].
  split; [discriminate | intros [? | [? | ?]]; contradiction].
Qed.

(** An iteration raises exactly when the tesseroid it pops has a zero
    dimension. *)
Lemma loop_body_raises_iff (c : Coordinates) (D : R) (radial : bool)
    (st : loop_state) (t : Tesseroid) :
  wf_state st -> pops st t ->
  (loop_body c D radial st = Raise ZeroDivisionError <-> zero_axis_length t).
Proof.
  intros Hwf [H0 Ht].
  destruct (loop_body_cases c D radial st Hwf H0) as (t' & Ht' & Hcases).
  assert (t' = t) as -> by congruence.
  rewrite <- (split_counts_raises c t D radial).
  destruct (split_counts c t D radial) as [[[n_lon n_lat] n_rad] | e] eqn:Hsc.
  - cbv zeta in Hcases. split; [| discriminate].
    intros Hb. exfalso. destruct (1 <? _)%Z.
    + destruct (_ <? _)%Z; [congruence |].
      destruct Hcases as (stk' & Hrun & _). congruence.
    + destruct (_ <? _)%Z; congruence.
  - rewrite Hcases. split; intros H; injection H as ->; reflexivity.
Qed.

(** The loop started where the iterations have led is the rest of the
    loop started where they began. *)
Lemma while_loop_follows (c : Coordinates) (D : R) (radial : bool)
    (st0 st : loop_state) (splits leaves : nat) :
  iterations c D radial st0 splits leaves st ->
  forall fuel,
    while_loop (splits + leaves + fuel) c D radial st0
    = while_loop fuel c D radial st.
Proof.
  induction 1 as
    [| splits leaves st1 st2 Hit IH H0 Hbody Hn
     | splits leaves st1 st2 Hit IH H0 Hbody Hn]; intros fuel.
  - reflexivity.
  - replace (splits + S leaves + fuel)%nat with (splits + leaves + S fuel)%nat
      by lia.
    rewrite IH. cbn [while_loop].
    assert ((0 <=? stack_top st1)%Z = true) as -> by (apply Z.leb_le; assumption).
    rewrite Hbody. reflexivity.
  - replace (S splits + leaves + fuel)%nat with (splits + leaves + S fuel)%nat
      by lia.
    rewrite IH. cbn [while_loop].
    assert ((0 <=? stack_top st1)%Z = true) as -> by (apply Z.leb_le; assumption).
    rewrite Hbody. reflexivity.
Qed.

(** A loop that raises has reached an iteration that pops a tesseroid
    with a zero dimension. *)
Lemma while_loop_raise_reached (c : Coordinates) (D : R) (radial : bool)
    (st0 : loop_state) :
  wf_state st0 ->
  forall fuel st splits leaves e,
    iterations c D radial st0 splits leaves st ->
    while_loop fuel c D radial st = Some (Raise e) ->
    exists splits' leaves' st' t,
      iterations c D radial st0 splits' leaves' st'
      /\ pops st' t /\ zero_axis_length t.
Proof.
  intros Hwf0. induction fuel as [| fuel IH]; intros st splits leaves e Hit Hrun;
    [discriminate Hrun |].
  pose proof (iterations_count c D radial st0 st splits leaves Hwf0 Hit)
    as (Hwf & _).
  simpl in Hrun. destruct (0 <=? stack_top st)%Z eqn:Htop; [| discriminate Hrun].
  apply Z.leb_le in Htop.
  destruct (loop_body c D radial st) as [[st2 | st2 err2] | e'] eqn:Hbody.
  - destruct (loop_body_progress c D radial st st2 Hwf Htop Hbody)
      as (_ & _ & _ & _ & [[Hn _] | [Hn _]]).
    + apply (IH st2 splits (S leaves) e);
        [eapply iterations_leaf; eassumption | assumption].
    + apply (IH st2 (S splits) leaves e);
        [eapply iterations_split; eassumption | assumption].
  - discriminate Hrun.
  - destruct (loop_body_cases c D radial st Hwf Htop) as (t & Ht & _).
    exists splits, leaves, st, t. split; [assumption |].
    split; [split; assumption |].
    apply (loop_body_raises_iff c D radial st t Hwf (conj Htop Ht)).
    rewrite Hbody. f_equal. eapply loop_body_raises; eassumption.
Qed.

(** The iterations of a call: their counts and the bound. *)
Lemma iterations_bounded (c : Coordinates) (t : Tesseroid) (D : R)
    (stk small : list Tesseroid) (radial : bool) (splits leaves : nat)
    (st : loop_state) :
  (0 < length stk)%nat ->
  iterations c D radial (mkState (<[0%nat := t]> stk) small 0 0)
    splits leaves st ->
  wf_state st
  /\ n_splits st = Z.of_nat leaves
  /\ (Z.of_nat splits < (stack_top st + 1) + n_splits st)%Z
  /\ (splits + leaves < iteration_bound stk small)%nat.
Proof.
  intros Hstack Hit.
  apply iterations_count in Hit
    as (Hwf & Hl1 & Hl2 & Hleaves & Hsplits); [| apply start_wf; assumption].
  split; [assumption |]. destruct Hwf as [Htop Hn].
  cbn [stack small_tesseroids stack_top n_splits] in Hl1, Hl2, Hleaves, Hsplits.
  rewrite length_insert in Hl1. unfold iteration_bound. lia.
Qed.

(** C10, as the code has it.  With positive capacities and
    [len(stack) + 2 * len(small_tesseroids)] tests of the loop condition
    allowed, the discretization ends: it returns [n_splits] and an error
    code among 0, -1 and -2, unless a division raises, and a division
    raises exactly when the iterations of the call reach one that pops a
    tesseroid with a zero axis length.  An iteration that goes on either
    records a leaf ([n_splits] grows by one and the stack shrinks by one)
    or pushes at least two children in place of the popped tesseroid (the
    stack grows).  After any number of iterations the leaves, recorded or
    still on the stack, exceed the splits, and the iterations are fewer
    than the bound. *)
Theorem discretization_terminates (c : Coordinates) (t : Tesseroid) (D : R)
    (stk small : list Tesseroid) (radial : bool) (fuel : nat) :
  (0 < length stk)%nat -> (0 < length small)%nat ->
  (iteration_bound stk small <= fuel)%nat ->
  (exists r, _adaptive_discretization fuel c t D stk small radial = Some r
     /\ (r = Raise ZeroDivisionError
         \/ exists st error, r = Ok (st, error)
              /\ (error = 0 \/ error = -1 \/ error = -2)%Z)
     /\ (r = Raise ZeroDivisionError
         <-> exists splits leaves st t',
               iterations c D radial (mkState (<[0%nat := t]> stk) small 0 0)
                 splits leaves st
               /\ pops st t' /\ zero_axis_length t'))
  /\ (forall st st', wf_state st -> (0 <= stack_top st)%Z ->
        loop_body c D radial st = Ok (Continue st') ->
        (n_splits st' = n_splits st + 1 /\ stack_top st' = stack_top st - 1)%Z
        \/ (n_splits st' = n_splits st /\ stack_top st + 1 <= stack_top st')%Z)
  /\ (forall splits leaves st,
        iterations c D radial (mkState (<[0%nat := t]> stk) small 0 0)
          splits leaves st ->
        n_splits st = Z.of_nat leaves
        /\ (Z.of_nat splits < (stack_top st + 1) + n_splits st)%Z
        /\ (splits + leaves < iteration_bound stk small)%nat).
Proof.
  intros Hstack Hsmall Hfuel. split; [| split].
  - rewrite adaptive_discretization_start by assumption.
    set (st0 := mkState (<[0%nat := t]> stk) small 0 0).
    assert (Hwf0 : wf_state st0) by (apply start_wf; assumption).
    destruct (while_loop_terminates c D radial fuel st0 Hwf0) as (r & Hr & Hcases).
    { unfold measure, iteration_bound, st0 in *.
      cbn [stack small_tesseroids stack_top n_splits].
      rewrite length_insert. lia. }
    exists r. split; [exact Hr |]. split; [exact Hcases |]. split.
    + intros ->.
      apply (while_loop_raise_reached c D radial st0 Hwf0 fuel st0 0 0
               ZeroDivisionError); [apply iterations_none | exact Hr].
    + intros (splits & leaves & st & t' & Hit & Hpops & Hzero).
      destruct (iterations_bounded c t D stk small radial splits leaves st
                  Hstack Hit) as (Hwf & _ & _ & Hbound).
      pose proof (while_loop_follows c D radial st0 st splits leaves Hit
                    (fuel - (splits + leaves))) as Hrest.
      replace (splits + leaves + (fuel - (splits + leaves)))%nat with fuel
        in Hrest by lia.
      rewrite Hrest in Hr.
      destruct (fuel - (splits + leaves))%nat as [| rest] eqn:Hleft; [lia |].
      cbn [while_loop] in Hr.
      assert ((0 <=? stack_top st)%Z = true) as Htop
        by (apply Z.leb_le; apply Hpops).
      rewrite Htop in Hr.
      rewrite (proj2 (loop_body_raises_iff c D radial st t' Hwf Hpops) Hzero)
        in Hr.
      congruence.
  - intros st st' Hwf H0 Hbody.
    apply (loop_body_progress c D radial st st' Hwf H0 Hbody).
  - intros splits leaves st Hit.
    apply (iterations_bounded c t D stk small radial splits leaves st Hstack Hit).
Qed.

Lemma discretization_terminates_witness :
  exists r,
    _adaptive_discretization 3 sample_point_far sample_tesseroid 1
      [sample_tesseroid] [sample_tesseroid] false = Some r
    /\ (r = Raise ZeroDivisionError
        \/ exists st error, r = Ok (st, error)
             /\ (error = 0 \/ error = -1 \/ error = -2)%Z)
    /\ (r = Raise ZeroDivisionError
        <-> exists splits leaves st t',
              iterations sample_point_far 1 false
                (mkState (<[0%nat := sample_tesseroid]> [sample_tesseroid])
                   [sample_tesseroid] 0 0)
                splits leaves st
              /\ pops st t' /\ zero_axis_length t').
Proof.
  destruct (discretization_terminates sample_point_far sample_tesseroid 1
              [sample_tesseroid] [sample_tesseroid] false 3)
    as [Hends _];
    [simpl; lia | simpl; lia | unfold iteration_bound; simpl; lia |].
  exact Hends.
Defined.

(** C10, as stated, fails on a tesseroid that spans 360 degrees: the call
    never returns, the first division raises. *)
Lemma discretization_may_raise :
  ~ exists fuel st error,
      _adaptive_discretization fuel sample_point_far wrapped_tesseroid 1
        [sample_tesseroid] [sample_tesseroid] false = Some (Ok (st, error)).
Proof.
  intros (fuel & st & error & H). destruct fuel as [| fuel].
  - discriminate H.
  - rewrite discretization_wrapped in H by (simpl; lia). discriminate H.
Qed.

(** ** A tesseroid that already satisfies the criterion *)

Lemma ratio_positive_divisor (x y D : R) : 0 < D -> D <= x / y -> y <> 0.
Proof.
  intros HD Hr ->. unfold Rdiv in Hr. rewrite Rinv_0, Rmult_0_r in Hr. lra.
Qed.

Lemma split_counts_satisfied (c : Coordinates) (t : Tesseroid) (D : R)
    (radial : bool) :
  0 < D -> bottom t < top t ->
  (let '(l_lon, l_lat, l_rad) := _tesseroid_dimensions t in
   let distance := _distance_tesseroid_point c t in
   D <= distance / l_lon /\ D <= distance / l_lat
   /\ (radial = true -> D <= distance / l_rad)) ->
  split_counts c t D radial = Ok (1%Z, 1%Z, 1%Z).
Proof.
  intros HD Hbt. unfold split_counts.
  assert (Hrad : snd (_tesseroid_dimensions t) = top t - bottom t).
  { destruct t; reflexivity. }
  destruct (_tesseroid_dimensions t) as [[l_lon l_lat] l_rad].
  simpl in Hrad. intros (Hlon & Hlat & Hr).
  rewrite (fdiv_ok _ l_lon) by (eapply ratio_positive_divisor; eassumption).
  rewrite (fdiv_ok _ l_lat) by (eapply ratio_positive_divisor; eassumption).
  rewrite (fdiv_ok _ l_rad) by lra. simpl.
  rewrite !Rltb_false by assumption.
  destruct radial; [| rewrite andb_false_r; reflexivity].
  rewrite Rltb_false by auto. reflexivity.
Qed.

(** The run on a tesseroid that needs no split: one leaf, and the loop
    ends at its second test. *)
Lemma single_leaf_run (c : Coordinates) (t : Tesseroid) (D : R)
    (stk small : list Tesseroid) (radial : bool) (fuel : nat) :
  (0 < length stk)%nat -> (0 < length small)%nat ->
  split_counts c t D radial = Ok (1%Z, 1%Z, 1%Z) ->
  _adaptive_discretization (S (S fuel)) c t D stk small radial
  = Some (Ok (mkState (<[0%nat := t]> stk) (<[0%nat := t]> small) (-1) 1,
              0%Z)).
Proof.
  intros Hstk Hsmall Hcounts.
  unfold _adaptive_discretization. rewrite setitem_ok by lia.
  cbn [while_loop stack_top]. change (0 <=? 0)%Z with true. cbv iota.
  unfold loop_body.
  rewrite (getitem_ok _ 0 t); [| lia | apply list_lookup_insert_eq; assumption].
  cbn [mbind result_bind]. rewrite Hcounts.
  cbn [mbind result_bind]. change (1 <? 1 * 1 * 1)%Z with false. cbv iota.
  destruct (Z.of_nat (length small) <? 0 + 1)%Z eqn:Hroom;
    [apply Z.ltb_lt in Hroom; lia |].
  rewrite setitem_ok by lia. cbn [mbind result_bind].
  cbn [while_loop stack_top]. change (0 <=? 0 - 1)%Z with false. cbv iota.
  reflexivity.
Qed.

(** C7.  A valid input whose tesseroid satisfies the criterion on every
    axis (the radial one counts only under [radial_discretization]) yields
    exactly one leaf, the input tesseroid, and no error. *)
Theorem far_point_single_leaf (c : Coordinates) (t : Tesseroid) (D : R)
    (stk small : list Tesseroid) (radial : bool) (fuel : nat) :
  west t < east t -> south t < north t -> 0 < bottom t < top t ->
  0 < D -> (0 < length stk)%nat -> (0 < length small)%nat ->
  (2 <= fuel)%nat ->
  (let '(l_lon, l_lat, l_rad) := _tesseroid_dimensions t in
   let distance := _distance_tesseroid_point c t in
   D <= distance / l_lon /\ D <= distance / l_lat
   /\ (radial = true -> D <= distance / l_rad)) ->
  exists st,
    _adaptive_discretization fuel c t D stk small radial = Some (Ok (st, 0%Z))
    /\ n_splits st = 1%Z
    /\ take (Z.to_nat (n_splits st)) (small_tesseroids st) = [t].
Proof.
  intros _ _ Hbt HD Hstk Hsmall Hfuel Hcrit.
  destruct fuel as [| [| fuel]]; [lia | lia |].
  rewrite single_leaf_run;
    [| assumption | assumption | apply split_counts_satisfied; (assumption || lra)].
  eexists. split; [reflexivity |]. cbn [n_splits small_tesseroids].
  split; [reflexivity |].
  destruct small as [| x small]; [simpl in Hsmall; lia | reflexivity].
Qed.

Lemma sample_far_criterion (radial : bool) :
  let '(l_lon, l_lat, l_rad) := _tesseroid_dimensions sample_tesseroid in
  let distance := _distance_tesseroid_point sample_point_far sample_tesseroid in
  1 <= distance / l_lon /\ 1 <= distance / l_lat
  /\ (radial = true -> 1 <= distance / l_rad).
Proof.
  pose proof PI_bounds as Hpi.
  unfold sample_tesseroid, sample_point_far.
  rewrite dimensions_two_degrees.
  replace (mkTesseroid (-1) 1 (-1) 1 1 2)
    with (mkTesseroid (- (1)) 1 (- (1)) 1 1 2) by reflexivity.
  rewrite distance_on_axis by lra.
  assert (Harc : 1 <= (100 - (1 + 2) / 2) / (2 * (PI / 90))).
  { apply Rmult_le_reg_r with (2 * (PI / 90)); [lra |].
    replace ((100 - (1 + 2) / 2) / (2 * (PI / 90)) * (2 * (PI / 90)))
      with (100 - (1 + 2) / 2) by (field; lra).
    lra. }
  split; [assumption |]. split; [assumption |]. intros _. lra.
Qed.

Lemma sample_far_counts (radial : bool) :
  split_counts sample_point_far sample_tesseroid 1 radial
  = Ok (1%Z, 1%Z, 1%Z).
Proof.
  apply split_counts_satisfied;
    [lra | simpl; lra | apply sample_far_criterion].
Qed.

Lemma far_point_single_leaf_witness :
  exists st,
    _adaptive_discretization 2 sample_point_far sample_tesseroid 1
      [sample_tesseroid] [sample_tesseroid] false = Some (Ok (st, 0%Z))
    /\ n_splits st = 1%Z
    /\ take (Z.to_nat (n_splits st)) (small_tesseroids st) = [sample_tesseroid].
Proof.
  apply (far_point_single_leaf sample_point_far sample_tesseroid 1
           [sample_tesseroid] [sample_tesseroid] false 2);
    try (simpl; lra); try (simpl; lia).
  apply sample_far_criterion.
Defined.

(** ** A run with one split *)

Lemma leaf_step (c : Coordinates) (D : R) (radial : bool) (st : loop_state)
    (t : Tesseroid) :
  wf_state st -> (0 <= stack_top st)%Z ->
  stack st !! Z.to_nat (stack_top st) = Some t ->
  split_counts c t D radial = Ok (1%Z, 1%Z, 1%Z) ->
  (n_splits st + 1 <= Z.of_nat (length (small_tesseroids st)))%Z ->
  loop_body c D radial st
  = Ok (Continue
          (mkState (stack st)
             (<[Z.to_nat (n_splits st) := t]> (small_tesseroids st))
             (stack_top st - 1) (n_splits st + 1))).
Proof.
  intros Hwf H0 Ht Hsc Hroom.
  destruct (loop_body_cases c D radial st Hwf H0) as (t' & Ht' & Hcases).
  assert (t' = t) as -> by congruence.
  rewrite Hsc in Hcases. cbv zeta in Hcases.
  change (1 <? 1 * 1 * 1)%Z with false in Hcases. cbv iota in Hcases.
  apply Z.ltb_ge in Hroom. rewrite Hroom in Hcases. exact Hcases.
Qed.

Lemma sample_halves :
  split_child sample_tesseroid 1 1 2 0 0 0 = sample_lower_half
  /\ split_child sample_tesseroid 1 1 2 0 0 1 = sample_upper_half.
Proof.
  unfold split_child, sample_tesseroid, sample_lower_half, sample_upper_half.
  cbn [west east south north bottom top].
  change (0 + 1)%Z with 1%Z. change (1 + 1)%Z with 2%Z.
  split; f_equal; lra.
Qed.

Lemma sample_half_counts (t : Tesseroid) :
  t = sample_lower_half \/ t = sample_upper_half ->
  split_counts sample_point_above t 2 true = Ok (1%Z, 1%Z, 1%Z).
Proof.
  unfold sample_point_above, sample_lower_half, sample_upper_half.
  intros [-> | ->]; rewrite split_counts_on_axis by lra;
    rewrite Rltb_false by lra; reflexivity.
Qed.

(** Seen from [sample_point_above] with [D = 2] and the radial
    discretization, the sample tesseroid is split once, along the radius;
    the upper half, pushed last, is the first leaf. *)
Example sample_above_run (stk small : list Tesseroid) :
  length stk = 2%nat -> length small = 2%nat ->
  exists st,
    _adaptive_discretization 4 sample_point_above sample_tesseroid 2
      stk small true = Some (Ok (st, 0%Z))
    /\ leaf_set st = [sample_upper_half; sample_lower_half].
Proof.
  intros Hstk Hsmall.
  rewrite adaptive_discretization_start by lia.
  set (st0 := mkState (<[0%nat := sample_tesseroid]> stk) small 0 0).
  assert (Hwf0 : wf_state st0) by (apply start_wf; lia).
  (* first iteration: the split *)
  destruct (loop_body_cases sample_point_above 2 true st0 Hwf0 ltac:(simpl; lia))
    as (t & Ht & Hcases).
  assert (t = sample_tesseroid) as ->.
  { unfold st0 in Ht. cbn [stack stack_top] in Ht.
    rewrite list_lookup_insert_eq in Ht by (simpl; lia). congruence. }
  rewrite sample_above_counts in Hcases by lra. cbv zeta in Hcases.
  change (1 <? 1 * 1 * 2)%Z with true in Hcases. cbv iota in Hcases.
  unfold st0 in Hcases at 1. cbn [stack stack_top] in Hcases.
  rewrite length_insert, Hstk in Hcases.
  change (Z.of_nat 2 <? 0 + 1 * 1 * 2)%Z with false in Hcases.
  cbv iota in Hcases.
  destruct Hcases as (stk1 & Hb0 & Hlen1 & _ & Hcells).
  destruct sample_halves as [Hlow Hup].
  pose proof (Hcells 0%Z _ ltac:(lia)
                (split_cells_at sample_tesseroid 1 1 2 0 0 0
                   ltac:(lia) ltac:(lia) ltac:(lia))) as Hc0.
  pose proof (Hcells 1%Z _ ltac:(lia)
                (split_cells_at sample_tesseroid 1 1 2 0 0 1
                   ltac:(lia) ltac:(lia) ltac:(lia))) as Hc1.
  rewrite Hlow in Hc0. rewrite Hup in Hc1.
  change (Z.to_nat (0 + 0)) with 0%nat in Hc0.
  change (Z.to_nat (0 + 1)) with 1%nat in Hc1.
  unfold st0 in Hb0. cbn [small_tesseroids n_splits stack_top] in Hb0.
  change (0 - 1 + 1 * 1 * 2)%Z with 1%Z in Hb0.
  unfold st0 in Hlen1. cbn [stack] in Hlen1.
  rewrite length_insert, Hstk in Hlen1.
  (* second iteration: the upper half is a leaf *)
  set (st1 := mkState stk1 small 1 0) in Hb0.
  assert (Hwf1 : wf_state st1) by (unfold wf_state, st1; simpl; lia).
  pose proof (leaf_step sample_point_above 2 true st1 sample_upper_half
                Hwf1 ltac:(simpl; lia) Hc1
                (sample_half_counts _ (or_intror eq_refl))
                ltac:(simpl; lia)) as Hb1.
  cbn [stack small_tesseroids stack_top n_splits st1] in Hb1.
  change (1 - 1)%Z with 0%Z in Hb1. change (0 + 1)%Z with 1%Z in Hb1.
  change (Z.to_nat 0) with 0%nat in Hb1.
  (* third iteration: the lower half is a leaf *)
  set (st2 := mkState stk1 (<[0%nat := sample_upper_half]> small) 0 1) in Hb1.
  assert (Hwf2 : wf_state st2).
  { unfold wf_state, st2. simpl. rewrite length_insert. lia. }
  pose proof (leaf_step sample_point_above 2 true st2 sample_lower_half
                Hwf2 ltac:(simpl; lia) Hc0
                (sample_half_counts _ (or_introl eq_refl))) as Hb2.
  cbn [stack small_tesseroids stack_top n_splits st2] in Hb2.
  rewrite length_insert, Hsmall in Hb2. specialize (Hb2 ltac:(lia)).
  change (0 - 1)%Z with (-1)%Z in Hb2. change (1 + 1)%Z with 2%Z in Hb2.
  change (Z.to_nat 1) with 1%nat in Hb2.
  (* the loop *)
  eexists. split.
  - cbn [while_loop].
    change (0 <=? stack_top st0)%Z with true. cbv iota.
    unfold st0. rewrite Hb0.
    change (0 <=? stack_top st1)%Z with true. cbv iota. rewrite Hb1.
    change (0 <=? stack_top st2)%Z with true. cbv iota. rewrite Hb2.
    reflexivity.
  - unfold leaf_set. cbn [n_splits small_tesseroids].
    destruct small as [| x [| y [| z small]]]; try discriminate Hsmall.
    reflexivity.
Qed.

(** ** Invariants of the loop *)

(** A property that the iterations keep holds of the state that the loop
    last reached; a [return] inside the loop leaves [n_splits] and
    [small_tesseroids] as that state has them. *)
Lemma while_loop_invariant (I : loop_state -> Prop) (c : Coordinates)
    (D : R) (radial : bool) :
  (forall st st', wf_state st -> (0 <= stack_top st)%Z -> I st ->
     loop_body c D radial st = Ok (Continue st') -> I st') ->
  forall fuel st st' error,
    wf_state st -> I st ->
    while_loop fuel c D radial st = Some (Ok (st', error)) ->
    exists st1, wf_state st1 /\ I st1
      /\ n_splits st' = n_splits st1
      /\ small_tesseroids st' = small_tesseroids st1
      /\ (error = 0%Z -> st' = st1 /\ (stack_top st1 < 0)%Z).
Proof.
  intros Hkeep. induction fuel as [| fuel IH]; intros st st' error Hwf HI Hrun.
  - discriminate Hrun.
  - simpl in Hrun. destruct (0 <=? stack_top st)%Z eqn:Htop.
    + apply Z.leb_le in Htop.
      destruct (loop_body c D radial st) as [[st2 | st2 err2] | e] eqn:Hbody.
      * apply (IH st2 st' error); [| eapply Hkeep; eassumption | assumption].
        apply (loop_body_progress c D radial st st2 Hwf Htop Hbody).
      * injection Hrun as <- <-.
        apply loop_body_returns in Hbody as (Herr & Hn & Hs); try assumption.
        exists st. split; [assumption |]. split; [assumption |].
        split; [assumption |]. split; [assumption |]. intros ->. lia.
      * discriminate Hrun.
    + apply Z.leb_gt in Htop. injection Hrun as <- <-.
      exists st. split; [assumption |]. split; [assumption |].
      split; [reflexivity |]. split; [reflexivity |]. intros _.
      split; [reflexivity | assumption].
Qed.

(** ** Two dimensional discretization recomputes the radii *)




(** *** A run with a split in longitude and latitude *)







(** ** The capacities do not change the leaves *)

Lemma same_run_leaf_set (st1 st2 : loop_state) :
  same_run st1 st2 -> leaf_set st1 = leaf_set st2.
Proof.
  intros (_ & Hn & _ & Hleaves). unfold leaf_set. rewrite <- Hn.
  apply list_eq. intros p.
  destruct (Nat.lt_ge_cases p (Z.to_nat (n_splits st1))) as [Hlt | Hge].
  - rewrite !lookup_take_lt by assumption. apply Hleaves. lia.
  - rewrite !lookup_take_ge by assumption. reflexivity.
Qed.

(** Iterations from states that agree go on in agreement. *)
Lemma loop_body_same_run (c : Coordinates) (D : R) (radial : bool)
    (st1 st2 st1' st2' : loop_state) :
  wf_state st1 -> wf_state st2 -> (0 <= stack_top st1)%Z ->
  same_run st1 st2 ->
  loop_body c D radial st1 = Ok (Continue st1') ->
  loop_body c D radial st2 = Ok (Continue st2') ->
  same_run st1' st2'.
Proof.
  intros Hwf1 Hwf2 H0 (Htop & Hn & Hstack & Hleaves) Hb1 Hb2.
  destruct (loop_body_cases c D radial st1 Hwf1 H0) as (t & Ht & Hc1).
  destruct (loop_body_cases c D radial st2 Hwf2 ltac:(lia)) as (t2 & Ht2 & Hc2).
  assert (t2 = t) as ->.
  { rewrite <- Htop, <- Hstack in Ht2 by lia. congruence. }
  destruct (split_counts c t D radial) as [[[n_lon n_lat] n_rad] | e] eqn:Hsc;
    [| congruence].
  apply split_counts_range in Hsc as (Hlon & Hlat & Hrad & _).
  cbv zeta in Hc1, Hc2.
  destruct (1 <? n_lon * n_lat * n_rad)%Z eqn:Hm.
  - destruct (Z.of_nat (length (stack st1)) <? _)%Z; [congruence |].
    destruct (Z.of_nat (length (stack st2)) <? _)%Z; [congruence |].
    destruct Hc1 as (stk1 & Hr1 & _ & Hf1 & Hcells1).
    destruct Hc2 as (stk2 & Hr2 & _ & Hf2 & Hcells2).
    rewrite Hr1 in Hb1. rewrite Hr2 in Hb2.
    injection Hb1 as <-. injection Hb2 as <-.
    unfold same_run. cbn [stack small_tesseroids stack_top n_splits].
    split; [lia |]. split; [assumption |]. split; [| assumption].
    intros p Hp.
    destruct (Z_lt_ge_dec (Z.of_nat p) (stack_top st1)) as [Hold | Hnew].
    + rewrite Hf1, Hf2 by lia. apply Hstack. lia.
    + destruct (split_cells_total t n_lon n_lat n_rad
                  (Z.of_nat p - stack_top st1)) as [v Hv]; [lia | lia | lia |].
      pose proof (Hcells1 (Z.of_nat p - stack_top st1)%Z v ltac:(lia) Hv) as H1.
      pose proof (Hcells2 (Z.of_nat p - stack_top st1)%Z v ltac:(lia) Hv) as H2.
      rewrite <- Htop in H2.
      replace (Z.to_nat (stack_top st1 + (Z.of_nat p - stack_top st1)))
        with p in H1, H2 by lia.
      congruence.
  - destruct (Z.of_nat (length (small_tesseroids st1)) <? _)%Z eqn:Hroom1;
      [congruence |].
    destruct (Z.of_nat (length (small_tesseroids st2)) <? _)%Z eqn:Hroom2;
      [congruence |].
    apply Z.ltb_ge in Hroom1, Hroom2.
    rewrite Hc1 in Hb1. rewrite Hc2 in Hb2.
    injection Hb1 as <-. injection Hb2 as <-.
    destruct Hwf1 as [_ Hns1]. destruct Hwf2 as [_ Hns2].
    unfold same_run. cbn [stack small_tesseroids stack_top n_splits].
    split; [lia |]. split; [lia |]. split.
    + intros p Hp. apply Hstack. lia.
    + intros p Hp. rewrite <- Hn.
      destruct (Nat.eq_dec p (Z.to_nat (n_splits st1))) as [-> | Hne].
      * rewrite !list_lookup_insert_eq by lia. reflexivity.
      * rewrite !list_lookup_insert_ne by lia. apply Hleaves. lia.
Qed.

(** With at least as much room, the iteration goes on as well. *)
Lemma loop_body_more_room (c : Coordinates) (D : R) (radial : bool)
    (st1 st2 st1' : loop_state) :
  wf_state st1 -> wf_state st2 -> (0 <= stack_top st1)%Z ->
  same_run st1 st2 ->
  (length (stack st1) <= length (stack st2))%nat ->
  (length (small_tesseroids st1) <= length (small_tesseroids st2))%nat ->
  loop_body c D radial st1 = Ok (Continue st1') ->
  exists st2', loop_body c D radial st2 = Ok (Continue st2').
Proof.
  intros Hwf1 Hwf2 H0 (Htop & Hn & Hstack & Hleaves) Hlen1 Hlen2 Hb1.
  destruct (loop_body_cases c D radial st1 Hwf1 H0) as (t & Ht & Hc1).
  destruct (loop_body_cases c D radial st2 Hwf2 ltac:(lia)) as (t2 & Ht2 & Hc2).
  assert (t2 = t) as ->.
  { rewrite <- Htop, <- Hstack in Ht2 by lia. congruence. }
  destruct (split_counts c t D radial) as [[[n_lon n_lat] n_rad] | e] eqn:Hsc;
    [| congruence].
  cbv zeta in Hc1, Hc2.
  destruct (1 <? n_lon * n_lat * n_rad)%Z eqn:Hm.
  - destruct (Z.of_nat (length (stack st1)) <? _)%Z eqn:Hroom1; [congruence |].
    apply Z.ltb_ge in Hroom1.
    destruct (Z.of_nat (length (stack st2)) <? _)%Z eqn:Hroom2.
    + apply Z.ltb_lt in Hroom2. lia.
    + destruct Hc2 as (stk2 & Hr2 & _). eauto.
  - destruct (Z.of_nat (length (small_tesseroids st1)) <? _)%Z eqn:Hroom1;
      [congruence |].
    apply Z.ltb_ge in Hroom1.
    destruct (Z.of_nat (length (small_tesseroids st2)) <? _)%Z eqn:Hroom2.
    + apply Z.ltb_lt in Hroom2. lia.
    + eauto.
Qed.

Lemma while_loop_same_run (c : Coordinates) (D : R) (radial : bool)
    (fuel1 : nat) :
  forall (fuel2 : nat) (st1 st2 s1 s2 : loop_state),
    wf_state st1 -> wf_state st2 -> same_run st1 st2 ->
    while_loop fuel1 c D radial st1 = Some (Ok (s1, 0%Z)) ->
    while_loop fuel2 c D radial st2 = Some (Ok (s2, 0%Z)) ->
    same_run s1 s2.
Proof.
  induction fuel1 as [| fuel1 IH]; intros fuel2 st1 st2 s1 s2 Hwf1 Hwf2 Hsame H1 H2.
  - discriminate H1.
  - destruct fuel2 as [| fuel2]; [discriminate H2 |].
    simpl in H1, H2.
    assert (Htop : stack_top st1 = stack_top st2) by apply Hsame.
    rewrite <- Htop in H2.
    destruct (0 <=? stack_top st1)%Z eqn:H0.
    + apply Z.leb_le in H0.
      destruct (loop_body c D radial st1) as [[st1' | st1' e1] | e1] eqn:Hb1;
        [| | discriminate H1].
      2:{ injection H1 as <- ->.
          apply loop_body_returns in Hb1 as (Herr & _); [lia | assumption ..]. }
      destruct (loop_body c D radial st2) as [[st2' | st2' e2] | e2] eqn:Hb2;
        [| | discriminate H2].
      2:{ injection H2 as <- ->.
          apply loop_body_returns in Hb2 as (Herr & _); [lia | assumption | lia]. }
      apply (IH fuel2 st1' st2'); try assumption.
      * apply (loop_body_progress c D radial st1 st1' Hwf1 H0 Hb1).
      * apply (loop_body_progress c D radial st2 st2' Hwf2 ltac:(lia) Hb2).
      * apply (loop_body_same_run c D radial st1 st2); assumption.
    + injection H1 as <-. injection H2 as <-. assumption.
Qed.

Lemma while_loop_more_room (c : Coordinates) (D : R) (radial : bool)
    (fuel : nat) :
  forall (st1 st2 s1 : loop_state),
    wf_state st1 -> wf_state st2 -> same_run st1 st2 ->
    (length (stack st1) <= length (stack st2))%nat ->
    (length (small_tesseroids st1) <= length (small_tesseroids st2))%nat ->
    while_loop fuel c D radial st1 = Some (Ok (s1, 0%Z)) ->
    exists s2, while_loop fuel c D radial st2 = Some (Ok (s2, 0%Z)).
Proof.
  induction fuel as [| fuel IH]; intros st1 st2 s1 Hwf1 Hwf2 Hsame Hl1 Hl2 H1.
  - discriminate H1.
  - simpl in H1 |- *.
    assert (Htop : stack_top st1 = stack_top st2) by apply Hsame.
    rewrite <- Htop.
    destruct (0 <=? stack_top st1)%Z eqn:H0; [| eauto].
    apply Z.leb_le in H0.
    destruct (loop_body c D radial st1) as [[st1' | st1' e1] | e1] eqn:Hb1;
      [| | discriminate H1].
    2:{ injection H1 as <- ->.
        apply loop_body_returns in Hb1 as (Herr & _); [lia | assumption ..]. }
    destruct (loop_body_more_room c D radial st1 st2 st1'
                Hwf1 Hwf2 H0 Hsame Hl1 Hl2 Hb1) as [st2' Hb2].
    rewrite Hb2.
    destruct (loop_body_progress c D radial st1 st1' Hwf1 H0 Hb1)
      as (Hwf1' & Hs1 & Hm1 & _).
    destruct (loop_body_progress c D radial st2 st2' Hwf2 ltac:(lia) Hb2)
      as (Hwf2' & Hs2 & Hm2 & _).
    apply (IH st1' st2' s1); try assumption; try lia.
    apply (loop_body_same_run c D radial st1 st2); assumption.
Qed.

Lemma start_same_run (t : Tesseroid) (stk1 small1 stk2 small2 : list Tesseroid) :
  (0 < length stk1)%nat -> (0 < length stk2)%nat ->
  same_run (mkState (<[0%nat := t]> stk1) small1 0 0)
    (mkState (<[0%nat := t]> stk2) small2 0 0).
Proof.
  intros H1 H2. unfold same_run.
  cbn [stack small_tesseroids stack_top n_splits].
  split; [reflexivity |]. split; [reflexivity |]. split.
  - intros p Hp. assert (p = 0%nat) as -> by lia.
    rewrite !list_lookup_insert_eq by assumption. reflexivity.
  - intros p Hp. lia.
Qed.

(** C9.  Two runs on the same geometric input that both end without an
    overflow leave the same leaf set, whatever the capacities of their
    arrays (and the number of iterations allowed); and if a run ends
    without overflow, so does the run with arrays at least as large. *)
Theorem capacities_do_not_change_leaves (c : Coordinates) (t : Tesseroid)
    (D : R) (radial : bool) (stk1 small1 stk2 small2 : list Tesseroid)
    (fuel1 : nat) (st1 : loop_state) :
  _adaptive_discretization fuel1 c t D stk1 small1 radial
  = Some (Ok (st1, 0%Z)) ->
  (forall fuel2 st2,
     _adaptive_discretization fuel2 c t D stk2 small2 radial
     = Some (Ok (st2, 0%Z)) ->
     leaf_set st2 = leaf_set st1)
  /\ ((length stk1 <= length stk2)%nat ->
      (length small1 <= length small2)%nat ->
      exists st2,
        _adaptive_discretization fuel1 c t D stk2 small2 radial
        = Some (Ok (st2, 0%Z))
        /\ leaf_set st2 = leaf_set st1).
Proof.
  intros H1.
  pose proof (adaptive_discretization_returned _ _ _ _ _ _ _ _ _ H1) as Hlen1.
  rewrite adaptive_discretization_start in H1 by assumption.
  assert (Hsame : forall fuel2 st2,
            _adaptive_discretization fuel2 c t D stk2 small2 radial
            = Some (Ok (st2, 0%Z)) -> leaf_set st2 = leaf_set st1).
  { intros fuel2 st2 H2.
    pose proof (adaptive_discretization_returned _ _ _ _ _ _ _ _ _ H2) as Hlen2.
    rewrite adaptive_discretization_start in H2 by assumption.
    symmetry. apply same_run_leaf_set.
    eapply (while_loop_same_run c D radial fuel1 fuel2); try eassumption.
    - apply start_wf; assumption.
    - apply start_wf; assumption.
    - apply start_same_run; assumption. }
  split; [exact Hsame |].
  intros Hstk Hsmall.
  assert (Hlen2 : (0 < length stk2)%nat) by lia.
  destruct (while_loop_more_room c D radial fuel1
              (mkState (<[0%nat := t]> stk1) small1 0 0)
              (mkState (<[0%nat := t]> stk2) small2 0 0) st1)
    as [st2 H2].
  - apply start_wf; assumption.
  - apply start_wf; assumption.
  - apply start_same_run; assumption.
  - cbn [stack]. rewrite !length_insert. assumption.
  - cbn [small_tesseroids]. assumption.
  - assumption.
  - exists st2. rewrite adaptive_discretization_start by assumption.
    split; [assumption |].
    apply (Hsame fuel1). rewrite adaptive_discretization_start by assumption.
    assumption.
Qed.

Lemma capacities_do_not_change_leaves_witness :
  exists st2,
    _adaptive_discretization 4 sample_point_above sample_tesseroid 2
      [sample_tesseroid; wrapped_tesseroid; wrapped_tesseroid]
      [wrapped_tesseroid; wrapped_tesseroid; wrapped_tesseroid;
       wrapped_tesseroid; wrapped_tesseroid] true
    = Some (Ok (st2, 0%Z))
    /\ leaf_set st2 = [sample_upper_half; sample_lower_half].
Proof.
  destruct (sample_above_run [sample_tesseroid; sample_tesseroid]
              [sample_tesseroid; sample_tesseroid] eq_refl eq_refl)
    as (st1 & Hrun1 & Hleaves1).
  destruct (proj2 (capacities_do_not_change_leaves sample_point_above
                     sample_tesseroid 2 true
                     [sample_tesseroid; sample_tesseroid]
                     [sample_tesseroid; sample_tesseroid]
                     [sample_tesseroid; wrapped_tesseroid; wrapped_tesseroid]
                     [wrapped_tesseroid; wrapped_tesseroid; wrapped_tesseroid;
                      wrapped_tesseroid; wrapped_tesseroid]
                     4 st1 Hrun1))
    as (st2 & Hrun2 & Hleaves2); [simpl; lia | simpl; lia |].
  exists st2. split; [exact Hrun2 |]. rewrite Hleaves2. exact Hleaves1.
Defined.

(** ** Overflows *)

(** A stack of one row has no room for the children of the first split. *)
Lemma stack_of_one_overflows (fuel : nat) (c : Coordinates) (t : Tesseroid)
    (D : R) (stk small : list Tesseroid) (radial : bool)
    (n_lon n_lat n_rad : Z) :
  length stk = 1%nat ->
  split_counts c t D radial = Ok (n_lon, n_lat, n_rad) ->
  (1 < n_lon * n_lat * n_rad)%Z ->
  _adaptive_discretization (S fuel) c t D stk small radial
  = Some (Ok (mkState (<[0%nat := t]> stk) small (-1) 0, (-1)%Z)).
Proof.
  intros Hlen Hsc Hm.
  rewrite adaptive_discretization_start by lia.
  cbn [while_loop stack_top]. change (0 <=? 0)%Z with true. cbv iota.
  destruct (loop_body_cases c D radial (mkState (<[0%nat := t]> stk) small 0 0))
    as (t' & Ht' & Hcases); [apply start_wf; lia | simpl; lia |].
  cbn [stack small_tesseroids stack_top n_splits] in Ht', Hcases.
  rewrite list_lookup_insert_eq in Ht' by (simpl; lia).
  injection Ht' as <-. rewrite Hsc in Hcases. cbv zeta in Hcases.
  apply Z.ltb_lt in Hm as Hm'. rewrite Hm' in Hcases.
  rewrite length_insert, Hlen in Hcases.
  assert ((Z.of_nat 1 <? 0 + n_lon * n_lat * n_rad)%Z = true) as Hroom
    by (apply Z.ltb_lt; lia).
  rewrite Hroom in Hcases. rewrite Hcases. reflexivity.
Qed.

(** With no row for the leaves, an iteration on a tesseroid that needs no
    split returns the error -2 at once. *)
Lemma leaf_without_room (c : Coordinates) (D : R) (radial : bool)
    (st : loop_state) (t : Tesseroid) :
  wf_state st -> (0 <= stack_top st)%Z ->
  length (small_tesseroids st) = 0%nat ->
  stack st !! Z.to_nat (stack_top st) = Some t ->
  split_counts c t D radial = Ok (1%Z, 1%Z, 1%Z) ->
  loop_body c D radial st
  = Ok (Return (mkState (stack st) (small_tesseroids st) (stack_top st - 1)
                  (n_splits st)) (-2)).
Proof.
  intros Hwf H0 Hlen Ht Hsc.
  destruct (loop_body_cases c D radial st Hwf H0) as (t' & Ht' & Hcases).
  assert (t' = t) as -> by congruence.
  rewrite Hsc in Hcases. cbv zeta in Hcases.
  change (1 <? 1 * 1 * 1)%Z with false in Hcases. cbv iota in Hcases.
  destruct Hwf as [_ Hns]. rewrite Hlen in *.
  assert ((Z.of_nat 0 <? n_splits st + 1)%Z = true) as Hroom
    by (apply Z.ltb_lt; lia).
  rewrite Hroom in Hcases. exact Hcases.
Qed.

(** With no row for the leaves, the stack never empties: the loop cannot
    end without an error. *)
Lemma no_room_no_success (c : Coordinates) (D : R) (radial : bool)
    (fuel : nat) (st st' : loop_state) :
  wf_state st -> (0 <= stack_top st)%Z ->
  length (small_tesseroids st) = 0%nat ->
  while_loop fuel c D radial st <> Some (Ok (st', 0%Z)).
Proof.
  intros Hwf H0 Hlen Hrun.
  destruct (while_loop_invariant
              (fun s => (0 <= stack_top s)%Z
                        /\ length (small_tesseroids s) = 0%nat)
              c D radial) with (fuel := fuel) (st := st) (st' := st')
                               (error := 0%Z)
    as (st1 & _ & [Htop1 _] & _ & _ & Hend); try assumption.
  - intros s s' Hwfs H0s [_ Hls] Hbody.
    destruct (loop_body_progress c D radial s s' Hwfs H0s Hbody)
      as (Hwf' & _ & Hsmall & _ & [[Hn _] | [_ Htop]]).
    + destruct Hwfs as [_ Hns]. destruct Hwf' as [_ Hns'].
      rewrite Hsmall, Hls in Hns'. rewrite Hls in Hns. lia.
    + split; [lia | congruence].
  - split; assumption.
  - destruct (Hend eq_refl) as [_ Hneg]. lia.
Qed.

Lemma while_loop_error_codes (c : Coordinates) (D : R) (radial : bool)
    (fuel : nat) :
  forall st st' error,
    wf_state st ->
    while_loop fuel c D radial st = Some (Ok (st', error)) ->
    (error = 0 \/ error = -1 \/ error = -2)%Z.
Proof.
  induction fuel as [| fuel IH]; intros st st' error Hwf Hrun.
  - discriminate Hrun.
  - simpl in Hrun. destruct (0 <=? stack_top st)%Z eqn:H0.
    + apply Z.leb_le in H0.
      destruct (loop_body c D radial st) as [[st2 | st2 err2] | e] eqn:Hbody.
      * apply (IH st2 st' error); [| assumption].
        apply (loop_body_progress c D radial st st2 Hwf H0 Hbody).
      * injection Hrun as <- <-.
        apply loop_body_returns in Hbody as (Herr & _); [lia | assumption ..].
      * discriminate Hrun.
    + injection Hrun as <- <-. lia.
Qed.

(** ** The entry point: errors *)

Section GravityErrors.

Variable kernel : Type.
Variable kernel_potential kernel_g_radial : kernel.
Variable jit_point_masses_gravity :
  Coordinates -> list R -> list R -> list R -> list R -> kernel -> R.
Variable GRAVITATIONAL_CONST : R.
Variable leggauss_rule : Z -> list R * list R.
Variable empty_rows : nat -> list Tesseroid.
Variable empty_floats : nat -> list R.
Hypothesis empty_rows_length : forall n, length (empty_rows n) = n.

Local Abbreviation gravity :=
  (tesseroid_gravity kernel kernel_potential kernel_g_radial
     jit_point_masses_gravity GRAVITATIONAL_CONST leggauss_rule
     empty_rows empty_floats).
Local Abbreviation kernels := (KERNELS kernel kernel_potential kernel_g_radial).
Local Abbreviation after :=
  (after_discretization kernel kernel_potential kernel_g_radial
     jit_point_masses_gravity GRAVITATIONAL_CONST leggauss_rule empty_floats).

(** On a valid input the call is the discretization on fresh arrays
    followed by [after_discretization]. *)
Lemma gravity_valid (fuel : nat) (c : Coordinates) (t : Tesseroid)
    (density : R) (field : string) (ratii : list (string * R)) (D : R)
    (degrees : Z * Z * Z) (stack_size max_discretizations : Z)
    (radial : bool) (k : kernel) :
  dict_get kernels field = Some k ->
  dict_get ratii field = Some D ->
  _check_tesseroid t = Ok tt ->
  _check_point_outside_tesseroid c t = Ok tt ->
  (0 <= stack_size)%Z -> (0 <= max_discretizations)%Z ->
  gravity fuel c t density field ratii degrees stack_size
    max_discretizations radial
  = after c density field degrees
      (_adaptive_discretization fuel c t D
         (empty_rows (Z.to_nat stack_size))
         (empty_rows (Z.to_nat max_discretizations)) radial).
Proof.
  intros Hk HD Hct Hcp Hss Hmd. unfold tesseroid_gravity, after_discretization.
  rewrite Hk. unfold dict_getitem. rewrite HD. cbn [mbind result_bind].
  rewrite Hct, Hcp. cbn [mbind result_bind]. unfold np_empty_rows.
  assert ((stack_size <? 0)%Z = false) as -> by (apply Z.ltb_ge; assumption).
  assert ((max_discretizations <? 0)%Z = false) as ->
    by (apply Z.ltb_ge; assumption).
  cbn [mbind result_bind].
  destruct (_adaptive_discretization _ _ _ _ _ _ _) as [[[[] error] | e] |];
    reflexivity.
Qed.

(** C1.  On a valid input (known field with a ratio, checks passed):
    - with [stack_size = 1], if the input tesseroid needs a split the call
      raises the stack overflow error;
    - with [max_discretizations = 0], an iteration that would record a leaf
      returns the error -2 instead, the call raises the small tesseroids
      overflow error if the input tesseroid needs no split, and in no case
      does the call return a value;
    - whenever the discretization returns a non zero error, the call raises
      the matching overflow error: no leaf set and no value come out. *)
Theorem overflow_is_raised (fuel : nat) (c : Coordinates) (t : Tesseroid)
    (density : R) (field : string) (ratii : list (string * R)) (D : R)
    (degrees : Z * Z * Z) (radial : bool) (k : kernel) :
  dict_get kernels field = Some k ->
  dict_get ratii field = Some D ->
  _check_tesseroid t = Ok tt ->
  _check_point_outside_tesseroid c t = Ok tt ->
  (0 < fuel)%nat ->
  (forall max_discretizations n_lon n_lat n_rad,
     (0 <= max_discretizations)%Z ->
     split_counts c t D radial = Ok (n_lon, n_lat, n_rad) ->
     (1 < n_lon * n_lat * n_rad)%Z ->
     gravity fuel c t density field ratii degrees 1 max_discretizations radial
     = Some (Raise (OverflowError
                      "Stack Overflow. Try to increase the stack size.")))
  /\ (forall stack_size, (0 < stack_size)%Z ->
        (split_counts c t D radial = Ok (1%Z, 1%Z, 1%Z) ->
         gravity fuel c t density field ratii degrees stack_size 0 radial
         = Some (Raise (OverflowError
              "Small Tesseroids Overflow. Try to increase the maximum number of splits.")))
        /\ (forall fuel' v,
              gravity fuel' c t density field ratii degrees stack_size 0 radial
              <> Some (Ok v)))
  /\ (forall st t',
        wf_state st -> (0 <= stack_top st)%Z ->
        length (small_tesseroids st) = 0%nat ->
        stack st !! Z.to_nat (stack_top st) = Some t' ->
        split_counts c t' D radial = Ok (1%Z, 1%Z, 1%Z) ->
        loop_body c D radial st
        = Ok (Return (mkState (stack st) (small_tesseroids st)
                        (stack_top st - 1) (n_splits st)) (-2)))
  /\ (forall stack_size max_discretizations st error,
        (0 <= stack_size)%Z -> (0 <= max_discretizations)%Z ->
        _adaptive_discretization fuel c t D
          (empty_rows (Z.to_nat stack_size))
          (empty_rows (Z.to_nat max_discretizations)) radial
        = Some (Ok (st, error)) ->
        error <> 0%Z ->
        gravity fuel c t density field ratii degrees stack_size
          max_discretizations radial
        = Some (Raise (OverflowError
             (if (error =? -1)%Z
              then "Stack Overflow. Try to increase the stack size."
              else "Small Tesseroids Overflow. Try to increase the maximum number of splits.")))).
Proof.
  intros Hk HD Hct Hcp Hfuel.
  destruct fuel as [| fuel]; [lia |].
  split; [| split; [| split]].
  - intros md n_lon n_lat n_rad Hmd Hsc Hm.
    rewrite (gravity_valid _ _ _ _ _ _ D _ _ _ _ k) by (assumption || lia).
    rewrite (stack_of_one_overflows fuel c t D _ _ radial n_lon n_lat n_rad);
      [reflexivity | apply empty_rows_length | assumption | assumption].
  - intros ss Hss. split.
    + intros Hsc.
      rewrite (gravity_valid _ _ _ _ _ _ D _ _ _ _ k) by (assumption || lia).
      rewrite adaptive_discretization_start by (rewrite empty_rows_length; lia).
      cbn [while_loop stack_top]. change (0 <=? 0)%Z with true. cbv iota.
      rewrite (leaf_without_room c D radial _ t).
      * reflexivity.
      * apply start_wf. rewrite empty_rows_length. lia.
      * simpl. lia.
      * cbn [small_tesseroids]. apply empty_rows_length.
      * cbn [stack stack_top]. apply list_lookup_insert_eq.
        rewrite empty_rows_length. lia.
      * assumption.
    + intros fuel' v.
      rewrite (gravity_valid _ _ _ _ _ _ D _ _ _ _ k) by (assumption || lia).
      rewrite adaptive_discretization_start by (rewrite empty_rows_length; lia).
      unfold after_discretization.
      destruct (while_loop fuel' c D radial _) as [[[st error] | e] |] eqn:Hrun;
        [| discriminate | discriminate].
      assert (Hwf : wf_state
                (mkState (<[0%nat := t]> (empty_rows (Z.to_nat ss)))
                   (empty_rows (Z.to_nat 0)) 0 0))
        by (apply start_wf; rewrite empty_rows_length; lia).
      destruct (while_loop_error_codes c D radial fuel' _ _ _ Hwf Hrun)
        as [-> | [-> | ->]]; [| discriminate | discriminate].
      exfalso. revert Hrun. apply no_room_no_success.
      * exact Hwf.
      * simpl. lia.
      * cbn [small_tesseroids]. apply empty_rows_length.
  - intros st t' Hwf H0 Hlen Ht' Hsc.
    apply (leaf_without_room c D radial st t'); assumption.
  - intros ss md st error Hss Hmd Hrun Herr.
    rewrite (gravity_valid _ _ _ _ _ _ D _ _ _ _ k) by assumption.
    rewrite Hrun. unfold after_discretization.
    pose proof (adaptive_discretization_returned _ _ _ _ _ _ _ _ _ Hrun)
      as Hlen.
    rewrite adaptive_discretization_start in Hrun by assumption.
    apply while_loop_error_codes in Hrun as [-> | [-> | ->]];
      [contradiction | reflexivity | reflexivity |].
    apply start_wf. assumption.
Qed.

(** The call with a stack of one row on a tesseroid that needs a split. *)
Lemma gravity_stack_of_one (fuel : nat) (c : Coordinates) (t : Tesseroid)
    (density : R) (field : string) (ratii : list (string * R)) (D : R)
    (degrees : Z * Z * Z) (max_discretizations : Z) (radial : bool)
    (k : kernel) (n_lon n_lat n_rad : Z) :
  dict_get kernels field = Some k ->
  dict_get ratii field = Some D ->
  _check_tesseroid t = Ok tt ->
  _check_point_outside_tesseroid c t = Ok tt ->
  (0 <= max_discretizations)%Z ->
  split_counts c t D radial = Ok (n_lon, n_lat, n_rad) ->
  (1 < n_lon * n_lat * n_rad)%Z ->
  gravity (S fuel) c t density field ratii degrees 1 max_discretizations
    radial
  = Some (Raise (OverflowError
                   "Stack Overflow. Try to increase the stack size.")).
Proof.
  intros Hk HD Hct Hcp Hmd Hsc Hm.
  rewrite (gravity_valid _ _ _ _ _ _ D _ _ _ _ k) by (assumption || lia).
  rewrite (stack_of_one_overflows fuel c t D _ _ radial n_lon n_lat n_rad);
    [reflexivity | apply empty_rows_length | assumption | assumption].
Qed.

Lemma glq_nodes_weights_invalid (lon_degree lat_degree rad_degree : Z) :
  (lon_degree < 1 \/ lat_degree < 1 \/ rad_degree < 1)%Z ->
  glq_nodes_weights leggauss_rule (lon_degree, lat_degree, rad_degree)
  = Raise (ValueError "deg must be a positive integer").
Proof.
  intros Hdeg. unfold glq_nodes_weights, leggauss.
  destruct (lon_degree <? 1)%Z eqn:H1; [reflexivity |].
  destruct (leggauss_rule lon_degree) as [n1 w1]. cbn [mbind result_bind].
  destruct (lat_degree <? 1)%Z eqn:H2; [reflexivity |].
  destruct (leggauss_rule lat_degree) as [n2 w2]. cbn [mbind result_bind].
  destruct (rad_degree <? 1)%Z eqn:H3; [reflexivity |].
  apply Z.ltb_ge in H1, H2, H3. lia.
Qed.

(** C8, as the code has it.  The rule generator fails with the degree
    error as soon as one degree is less than 1.  The call reaches it only
    after the discretization: on a valid input with such a degree the call
    fails with the degree error if the discretization ended without
    error, and otherwise its outcome (overflow error, zero division, or no
    end within the iterations allowed) is what it is for any other
    degrees. *)
Theorem invalid_degree_after_discretization (fuel : nat) (c : Coordinates)
    (t : Tesseroid) (density : R) (field : string)
    (ratii : list (string * R)) (D : R)
    (lon_degree lat_degree rad_degree : Z)
    (stack_size max_discretizations : Z) (radial : bool) (k : kernel) :
  dict_get kernels field = Some k ->
  dict_get ratii field = Some D ->
  _check_tesseroid t = Ok tt ->
  _check_point_outside_tesseroid c t = Ok tt ->
  (0 <= stack_size)%Z -> (0 <= max_discretizations)%Z ->
  (lon_degree < 1 \/ lat_degree < 1 \/ rad_degree < 1)%Z ->
  let discretization :=
    _adaptive_discretization fuel c t D (empty_rows (Z.to_nat stack_size))
      (empty_rows (Z.to_nat max_discretizations)) radial in
  glq_nodes_weights leggauss_rule (lon_degree, lat_degree, rad_degree)
  = Raise (ValueError "deg must be a positive integer")
  /\ (forall st, discretization = Some (Ok (st, 0%Z)) ->
        gravity fuel c t density field ratii
          (lon_degree, lat_degree, rad_degree) stack_size
          max_discretizations radial
        = Some (Raise (ValueError "deg must be a positive integer")))
  /\ ((forall st, discretization <> Some (Ok (st, 0%Z))) ->
      forall degrees,
        gravity fuel c t density field ratii
          (lon_degree, lat_degree, rad_degree) stack_size
          max_discretizations radial
        = gravity fuel c t density field ratii degrees stack_size
            max_discretizations radial).
Proof.
  intros Hk HD Hct Hcp Hss Hmd Hdeg discretization.
  split; [apply glq_nodes_weights_invalid; assumption |]. split.
  - intros st Hrun.
    rewrite (gravity_valid _ _ _ _ _ _ D _ _ _ _ k) by assumption.
    fold discretization. rewrite Hrun. unfold after_discretization.
    change (0 =? -1)%Z with false. change (0 =? -2)%Z with false. cbv iota.
    unfold gravity_of_leaves.
    rewrite glq_nodes_weights_invalid by assumption. reflexivity.
  - intros Hfail degrees.
    rewrite !(gravity_valid _ _ _ _ _ _ D _ _ _ _ k) by assumption.
    fold discretization. unfold after_discretization.
    destruct discretization as [[[st error] | e] |] eqn:Hrun;
      [| reflexivity | reflexivity].
    destruct (error =? -1)%Z eqn:E1; [reflexivity |].
    destruct (error =? -2)%Z eqn:E2; [reflexivity |].
    exfalso. apply (Hfail st). f_equal. f_equal. f_equal.
    pose proof (adaptive_discretization_returned _ _ _ _ _ _ _ _ _ Hrun)
      as Hlen.
    unfold discretization in Hrun.
    rewrite adaptive_discretization_start in Hrun by assumption.
    apply while_loop_error_codes in Hrun; [| apply start_wf; assumption].
    apply Z.eqb_neq in E1, E2. lia.
Qed.

End GravityErrors.

(** ** The sample inputs are valid *)

Lemma check_tesseroid_ok (t : Tesseroid) :
  west t < east t -> south t < north t -> 0 < bottom t < top t ->
  _check_tesseroid t = Ok tt.
Proof.
  intros Hwe Hsn [Hb Hbt]. destruct t as [w e s n b tp]. simpl in *.
  unfold _check_tesseroid.
  rewrite (Rleb_false e w), (Rleb_false n s), (Rleb_false b 0),
    (Rleb_false tp 0), (Rleb_false tp b) by lra.
  reflexivity.
Qed.

Lemma check_point_above_ok (c : Coordinates) (t : Tesseroid) :
  top t <= radius c -> _check_point_outside_tesseroid c t = Ok tt.
Proof.
  intros Hr. destruct c as [lon lat r], t as [w e s n b tp]. simpl in *.
  unfold _check_point_outside_tesseroid.
  rewrite (Rltb_false r tp) by assumption.
  rewrite !andb_false_r. reflexivity.
Qed.

Lemma overflow_is_raised_witness :
  sample_gravity 1 sample_point_above sample_tesseroid 2670 "g_radial"
    DISTANCE_SIZE_RATII GLQ_DEGREES 1 5 true
  = Some (Raise (OverflowError
                   "Stack Overflow. Try to increase the stack size.")).
Proof.
  refine (proj1 (overflow_is_raised unit tt tt (fun _ _ _ _ _ _ => 0) 1
                   (fun _ => ([], [])) (fun n => replicate n sample_tesseroid)
                   (fun n => replicate n 0) _
                   1 sample_point_above sample_tesseroid 2670 "g_radial"
                   DISTANCE_SIZE_RATII 2.5 GLQ_DEGREES true tt _ _ _ _ _)
            5%Z 1%Z 1%Z 2%Z _ _ _).
  - intros n. apply length_replicate.
  - reflexivity.
  - reflexivity.
  - apply check_tesseroid_ok; simpl; lra.
  - apply check_point_above_ok; simpl; lra.
  - lia.
  - lia.
  - apply sample_above_counts. lra.
  - lia.
Defined.

Lemma invalid_degree_after_discretization_witness :
  sample_gravity 2 sample_point_far sample_tesseroid 2670 "potential"
    DISTANCE_SIZE_RATII (0, 2, 2)%Z 1 1 false
  = Some (Raise (ValueError "deg must be a positive integer")).
Proof.
  eapply (proj1 (proj2 (invalid_degree_after_discretization unit tt tt
                          (fun _ _ _ _ _ _ => 0) 1
                          (fun _ => ([], []))
                          (fun n => replicate n sample_tesseroid)
                          (fun n => replicate n 0)
                          2%nat sample_point_far sample_tesseroid 2670
                          "potential"%string DISTANCE_SIZE_RATII 1
                          0%Z 2%Z 2%Z 1%Z 1%Z false tt
                          _ _ _ _ _ _ _))).
  apply single_leaf_run;
    [rewrite length_replicate; lia | rewrite length_replicate; lia
    | apply sample_far_counts].
  Unshelve.
  - reflexivity.
  - reflexivity.
  - apply check_tesseroid_ok; simpl; lra.
  - apply check_point_above_ok; simpl; lra.
  - lia.
  - lia.
  - lia.
Defined.

(** C8, as stated, fails: with a degree 0 and a stack of one row, on a
    tesseroid that needs a split, the call fails with the stack overflow
    error of the discretization, not with the degree error. *)
Lemma invalid_degree_not_first :
  sample_gravity 1 sample_point_above sample_tesseroid 2670 "g_radial"
    DISTANCE_SIZE_RATII (0, 2, 2)%Z 1 5 true
  = Some (Raise (OverflowError
                   "Stack Overflow. Try to increase the stack size.")).
Proof.
  apply (gravity_stack_of_one unit tt tt (fun _ _ _ _ _ _ => 0) 1
           (fun _ => ([], [])) (fun n => replicate n sample_tesseroid)
           (fun n => replicate n 0) (fun n => length_replicate n _)
           0%nat sample_point_above sample_tesseroid 2670 "g_radial"%string
           DISTANCE_SIZE_RATII 2.5 (0, 2, 2)%Z 5%Z true tt 1%Z 1%Z 2%Z).
  - reflexivity.
  - reflexivity.
  - apply check_tesseroid_ok; simpl; lra.
  - apply check_point_above_ok; simpl; lra.
  - lia.
  - apply sample_above_counts. lra.
  - lia.
Qed.

(** ** Conversion to point masses *)

Lemma lookup_in_range {A : Type} (l : list A) (i : Z) :
  (0 <= i < Z.of_nat (length l))%Z -> exists x, l !! Z.to_nat i = Some x.
Proof.
  intros Hi. destruct (lookup_lt_is_Some_2 l (Z.to_nat i)) as [x Hx]; [lia |].
  exists x. exact Hx.
Qed.

(** The innermost body writes one column: the point mass of the
    specification. *)
Lemma point_mass_pusher (t : Tesseroid)
    (lon_nodes lat_nodes rad_nodes lon_weights lat_weights rad_weights : list R)
    (i j k : Z) :
  length lon_weights = length lon_nodes ->
  length lat_weights = length lat_nodes ->
  length rad_weights = length rad_nodes ->
  (0 <= i < Z.of_nat (length lon_nodes))%Z ->
  (0 <= j < Z.of_nat (length lat_nodes))%Z ->
  (0 <= k < Z.of_nat (length rad_nodes))%Z ->
  pusher mass_index masses_cap masses_cell 1
    (fun _ => mass_column t (lon_nodes, lat_nodes, rad_nodes)
                (lon_weights, lat_weights, rad_weights) i j k)
    (point_mass_body (west t) (east t) (south t) (north t) (bottom t) (top t)
       (1 / 8 * radians (east t - west t) * radians (north t - south t)
        * (top t - bottom t))
       (lon_nodes, lat_nodes, rad_nodes)
       (lon_weights, lat_weights, rad_weights) i j k).
Proof.
  intros Hl1 Hl2 Hl3 Hi Hj Hk [[row0 row1 row2] ws idx].
  unfold masses_cap, masses_cell. cbn [mass_index ms_point_masses ms_weights
    pm_longitude pm_latitude pm_radius].
  intros Hpos Hcap.
  destruct (lookup_in_range lon_nodes i Hi) as [u_lon Hu1].
  destruct (lookup_in_range lat_nodes j Hj) as [u_lat Hu2].
  destruct (lookup_in_range rad_nodes k Hk) as [u_rad Hu3].
  destruct (lookup_in_range lon_weights i ltac:(lia)) as [w_lon Hw1].
  destruct (lookup_in_range lat_weights j ltac:(lia)) as [w_lat Hw2].
  destruct (lookup_in_range rad_weights k ltac:(lia)) as [w_rad Hw3].
  unfold point_mass_body.
  rewrite (getitem_ok lon_nodes i u_lon), (getitem_ok lat_nodes j u_lat),
    (getitem_ok rad_nodes k u_rad) by (lia || assumption).
  cbn [mbind result_bind].
  rewrite !setitem_ok by lia. cbn [mbind result_bind].
  rewrite (getitem_ok lon_weights i w_lon), (getitem_ok lat_weights j w_lat),
    (getitem_ok rad_weights k w_rad) by (lia || assumption).
  cbn [mbind result_bind].
  rewrite setitem_ok by lia. cbn [mbind result_bind].
  eexists. split; [reflexivity |].
  cbn [mass_index ms_point_masses ms_weights pm_longitude pm_latitude
       pm_radius].
  split; [reflexivity |]. split; [rewrite !length_insert; reflexivity |].
  split.
  - intros p Hp. rewrite !list_lookup_insert_ne by lia. reflexivity.
  - intros q v Hq (u1 & u2 & u3 & w1 & w2 & w3 & E1 & E2 & E3 & E4 & E5 & E6 & ->).
    replace (idx + q)%Z with idx by lia.
    rewrite !list_lookup_insert_eq by lia.
    assert (u1 = u_lon) as -> by congruence.
    assert (u2 = u_lat) as -> by congruence.
    assert (u3 = u_rad) as -> by congruence.
    assert (w1 = w_lon) as -> by congruence.
    assert (w2 = w_lat) as -> by congruence.
    assert (w3 = w_rad) as -> by congruence.
    unfold column, equivalent_point_mass, affine, radians.
    do 3 f_equal. field.
Qed.

Lemma pusher_weaken {St V : Type} (pos cap : St -> Z)
    (cell : St -> nat -> option V) (m : Z) (G G' : Z -> V -> Prop)
    (body : St -> result St) :
  (forall q v, G' q v -> G q v) ->
  pusher pos cap cell m G body -> pusher pos cap cell m G' body.
Proof.
  intros Hsub Hp st Hpos Hcap.
  destruct (Hp st Hpos Hcap) as (st' & Hrun & Hpos' & Hcap' & Hframe & Hcells).
  exists st'. repeat (split; [assumption |]).
  intros q v Hq HG. apply Hcells; [assumption | apply Hsub; assumption].
Qed.

(** The loops over the nodes write the columns of one leaf. *)
Lemma tesseroid_body_pusher (leaves : list Tesseroid)
    (lon_nodes lat_nodes rad_nodes lon_weights lat_weights rad_weights : list R)
    (a : Z) (t : Tesseroid) :
  length lon_weights = length lon_nodes ->
  length lat_weights = length lat_nodes ->
  length rad_weights = length rad_nodes ->
  (0 <= a)%Z -> leaves !! Z.to_nat a = Some t ->
  pusher mass_index masses_cap masses_cell
    (Z.of_nat (length lon_nodes)
     * (Z.of_nat (length lat_nodes) * (Z.of_nat (length rad_nodes) * 1)))
    (leaf_columns t (lon_nodes, lat_nodes, rad_nodes)
       (lon_weights, lat_weights, rad_weights))
    (tesseroid_body leaves (lon_nodes, lat_nodes, rad_nodes)
       (lon_weights, lat_weights, rad_weights) a).
Proof.
  intros Hl1 Hl2 Hl3 Ha Ht st Hpos Hcap.
  unfold tesseroid_body. rewrite (getitem_ok leaves a t) by assumption.
  cbn [mbind result_bind].
  assert (Hp : pusher mass_index masses_cap masses_cell
                 (Z.of_nat (length lon_nodes)
                  * (Z.of_nat (length lat_nodes)
                     * (Z.of_nat (length rad_nodes) * 1)))
                 (leaf_columns t (lon_nodes, lat_nodes, rad_nodes)
                    (lon_weights, lat_weights, rad_weights))
                 (for_each (range (Z.of_nat (length lon_nodes)))
                    (fun i =>
                       for_each (range (Z.of_nat (length lat_nodes)))
                         (fun j =>
                            for_each (range (Z.of_nat (length rad_nodes)))
                              (fun k =>
                                 point_mass_body (west t) (east t) (south t)
                                   (north t) (bottom t) (top t)
                                   (1 / 8 * radians (east t - west t)
                                    * radians (north t - south t)
                                    * (top t - bottom t))
                                   (lon_nodes, lat_nodes, rad_nodes)
                                   (lon_weights, lat_weights, rad_weights)
                                   i j k))))).
  { unfold leaf_columns.
    apply pusher_for; [lia | lia |]. intros i Hi.
    apply pusher_for; [lia | lia |]. intros j Hj.
    apply pusher_for; [lia | lia |]. intros k Hk.
    apply point_mass_pusher; assumption. }
  destruct t as [w e s n b tp]. cbn [west east south north bottom top] in Hp.
  apply (Hp st Hpos Hcap).
Qed.

(** The columns that the converter writes, in the order of the writes. *)
Lemma converter_pusher (leaves : list Tesseroid)
    (lon_nodes lat_nodes rad_nodes lon_weights lat_weights rad_weights : list R) :
  length lon_weights = length lon_nodes ->
  length lat_weights = length lat_nodes ->
  length rad_weights = length rad_nodes ->
  pusher mass_index masses_cap masses_cell
    (Z.of_nat (length leaves)
     * (Z.of_nat (length lon_nodes)
        * (Z.of_nat (length lat_nodes) * (Z.of_nat (length rad_nodes) * 1))))
    (rounds (Z.of_nat (length leaves))
       (Z.of_nat (length lon_nodes)
        * (Z.of_nat (length lat_nodes) * (Z.of_nat (length rad_nodes) * 1)))
       (fun a q v =>
          exists t, leaves !! Z.to_nat a = Some t
            /\ leaf_columns t (lon_nodes, lat_nodes, rad_nodes)
                 (lon_weights, lat_weights, rad_weights) q v))
    (for_each (range (Z.of_nat (length leaves)))
       (tesseroid_body leaves (lon_nodes, lat_nodes, rad_nodes)
          (lon_weights, lat_weights, rad_weights))).
Proof.
  intros Hl1 Hl2 Hl3.
  apply pusher_for; [lia | nia |]. intros a Ha.
  destruct (lookup_in_range leaves a Ha) as [t Ht].
  apply (pusher_weaken _ _ _ _
           (leaf_columns t (lon_nodes, lat_nodes, rad_nodes)
              (lon_weights, lat_weights, rad_weights))).
  - intros q v (t' & Ht' & Hcol). assert (t' = t) as -> by congruence.
    exact Hcol.
  - apply tesseroid_body_pusher; (assumption || lia).
Qed.

Lemma flat_index_bound (x n y m : nat) :
  (x < n)%nat -> (y < m)%nat -> (x * m + y < n * m)%nat.
Proof. intros Hx Hy. nia. Qed.

Lemma flat_index_bound_Z (x n y m : Z) :
  (0 <= x < n)%Z -> (0 <= y < m)%Z -> (0 <= x * m + y < n * m)%Z.
Proof. intros Hx Hy. nia. Qed.

(** C6.  For [N] leaves and a rule of degrees [(L, M, K)] (nodes and
    weights of the same lengths), on arrays with at least [N * L * M * K]
    columns, the converter succeeds and writes exactly the first
    [N * L * M * K] columns: the column [((a * L + i) * M + j) * K + k]
    holds the point mass of the leaf [a] and the node triple [(i, j, k)],
    at the affine image of the three nodes, with the weight
    [A_factor * kappa * w_lon[i] * w_lat[j] * w_rad[k]], [kappa] being taken
    at the point mass itself. *)
Theorem point_masses_of_leaves (leaves : list Tesseroid)
    (lon_nodes lat_nodes rad_nodes lon_weights lat_weights rad_weights : list R)
    (point_masses : PointMasses) (weights : list R) :
  length lon_weights = length lon_nodes ->
  length lat_weights = length lat_nodes ->
  length rad_weights = length rad_nodes ->
  let total :=
    (length leaves * length lon_nodes * length lat_nodes
     * length rad_nodes)%nat in
  (total <= length (pm_longitude point_masses))%nat ->
  (total <= length (pm_latitude point_masses))%nat ->
  (total <= length (pm_radius point_masses))%nat ->
  (total <= length weights)%nat ->
  exists point_masses' weights',
    tesseroids_to_point_masses leaves (lon_nodes, lat_nodes, rad_nodes)
      (lon_weights, lat_weights, rad_weights) point_masses weights
    = Ok (point_masses', weights')
    /\ (forall (a i j k : nat) t u_lon u_lat u_rad w_lon w_lat w_rad,
          leaves !! a = Some t ->
          lon_nodes !! i = Some u_lon -> lat_nodes !! j = Some u_lat ->
          rad_nodes !! k = Some u_rad ->
          lon_weights !! i = Some w_lon -> lat_weights !! j = Some w_lat ->
          rad_weights !! k = Some w_rad ->
          let column :=
            (((a * length lon_nodes + i) * length lat_nodes + j)
             * length rad_nodes + k)%nat in
          let longitude := 0.5 * (east t - west t) * u_lon
                           + 0.5 * (east t + west t) in
          let latitude := 0.5 * (north t - south t) * u_lat
                          + 0.5 * (north t + south t) in
          let radius := 0.5 * (top t - bottom t) * u_rad
                        + 0.5 * (top t + bottom t) in
          let A_factor :=
            1 / 8 * (radians (east t) - radians (west t))
            * (radians (north t) - radians (south t))
            * (top t - bottom t) in
          let kappa := radius ^ 2 * cos (radians latitude) in
          (column < total)%nat
          /\ pm_longitude point_masses' !! column = Some longitude
          /\ pm_latitude point_masses' !! column = Some latitude
          /\ pm_radius point_masses' !! column = Some radius
          /\ weights' !! column
             = Some (A_factor * kappa * w_lon * w_lat * w_rad))
    /\ (forall p : nat, (total <= p)%nat ->
          pm_longitude point_masses' !! p = pm_longitude point_masses !! p
          /\ pm_latitude point_masses' !! p = pm_latitude point_masses !! p
          /\ pm_radius point_masses' !! p = pm_radius point_masses !! p
          /\ weights' !! p = weights !! p).
Proof.
  intros Hl1 Hl2 Hl3 total Hc0 Hc1 Hc2 Hc3.
  destruct (converter_pusher leaves lon_nodes lat_nodes rad_nodes
              lon_weights lat_weights rad_weights Hl1 Hl2 Hl3
              (mkMasses point_masses weights 0))
    as (st' & Hrun & Hpos & Hcap & Hframe & Hcells).
  { simpl. lia. }
  { unfold masses_cap. cbn [mass_index ms_point_masses ms_weights].
    unfold total in *. nia. }
  exists (ms_point_masses st'), (ms_weights st').
  split; [unfold tesseroids_to_point_masses; rewrite Hrun; reflexivity |].
  split.
  - intros a i j k t u_lon u_lat u_rad w_lon w_lat w_rad
      Ht Hu1 Hu2 Hu3 Hw1 Hw2 Hw3 column longitude latitude radius
      A_factor kappa.
    apply lookup_lt_Some in Ht as Ha. apply lookup_lt_Some in Hu1 as Hi.
    apply lookup_lt_Some in Hu2 as Hj. apply lookup_lt_Some in Hu3 as Hk.
    split.
    { unfold column, total.
      repeat (apply flat_index_bound; [| assumption]). assumption. }
    pose (qk := (Z.of_nat k * 1 + 0)%Z).
    pose (qj := (Z.of_nat j * (Z.of_nat (length rad_nodes) * 1) + qk)%Z).
    pose (qi := (Z.of_nat i
                 * (Z.of_nat (length lat_nodes)
                    * (Z.of_nat (length rad_nodes) * 1)) + qj)%Z).
    pose (q := (Z.of_nat a
                * (Z.of_nat (length lon_nodes)
                   * (Z.of_nat (length lat_nodes)
                      * (Z.of_nat (length rad_nodes) * 1))) + qi)%Z).
    assert (Hqk : (0 <= qk < Z.of_nat (length rad_nodes) * 1)%Z)
      by (unfold qk; lia).
    assert (Hqj : (0 <= qj < Z.of_nat (length lat_nodes)
                              * (Z.of_nat (length rad_nodes) * 1))%Z)
      by (apply flat_index_bound_Z; [lia | exact Hqk]).
    assert (Hqi : (0 <= qi < Z.of_nat (length lon_nodes)
                              * (Z.of_nat (length lat_nodes)
                                 * (Z.of_nat (length rad_nodes) * 1)))%Z)
      by (apply flat_index_bound_Z; [lia | exact Hqj]).
    assert (Hq : (0 <= q < Z.of_nat (length leaves)
                            * (Z.of_nat (length lon_nodes)
                               * (Z.of_nat (length lat_nodes)
                                  * (Z.of_nat (length rad_nodes) * 1))))%Z)
      by (apply flat_index_bound_Z; [lia | exact Hqi]).
    assert (Hcol : Z.to_nat (mass_index (mkMasses point_masses weights 0) + q)
                   = column).
    { unfold q, qi, qj, qk, column. cbn [mass_index]. nia. }
    specialize (Hcells q
      (Some longitude, Some latitude, Some radius,
       Some (A_factor * kappa * w_lon * w_lat * w_rad)) Hq).
    rewrite Hcol in Hcells. unfold masses_cell in Hcells.
    assert (Hcell : Some
              (pm_longitude (ms_point_masses st') !! column,
               pm_latitude (ms_point_masses st') !! column,
               pm_radius (ms_point_masses st') !! column,
               ms_weights st' !! column)
            = Some (Some longitude, Some latitude, Some radius,
                    Some (A_factor * kappa * w_lon * w_lat * w_rad))).
    { apply Hcells.
      exists (Z.of_nat a), qi. split; [lia |]. split; [exact Hqi |].
      split; [reflexivity |].
      exists t. split; [rewrite Nat2Z.id; exact Ht |].
      unfold leaf_columns.
      exists (Z.of_nat i), qj. split; [lia |]. split; [exact Hqj |].
      split; [reflexivity |].
      exists (Z.of_nat j), qk. split; [lia |]. split; [exact Hqk |].
      split; [reflexivity |].
      exists (Z.of_nat k), 0%Z. split; [lia |]. split; [lia |].
      split; [reflexivity |].
      unfold mass_column. rewrite !Nat2Z.id.
      exists u_lon, u_lat, u_rad, w_lon, w_lat, w_rad.
      repeat (split; [assumption |]). reflexivity. }
    injection Hcell as -> -> -> ->. repeat split; reflexivity.
  - intros p Hp.
    assert (Hcell : masses_cell st' p
                    = masses_cell (mkMasses point_masses weights 0) p).
    { apply Hframe. right. cbn [mass_index]. unfold total in Hp. nia. }
    unfold masses_cell in Hcell.
    cbn [ms_point_masses ms_weights] in Hcell.
    injection Hcell as -> -> -> ->. repeat split; reflexivity.
Qed.

Lemma point_masses_of_leaves_witness :
  exists point_masses' weights',
    tesseroids_to_point_masses [sample_tesseroid] ([0], [0], [0])
      ([2], [2], [2]) (mkPointMasses [0] [0] [0]) [0]
    = Ok (point_masses', weights')
    /\ pm_radius point_masses' !! 0%nat = Some (0.5 * (2 - 1) * 0 + 0.5 * (2 + 1)).
Proof.
  destruct (point_masses_of_leaves [sample_tesseroid] [0] [0] [0] [2] [2] [2]
              (mkPointMasses [0] [0] [0]) [0])
    as (pm' & ws' & Hrun & Hcols & _);
    try reflexivity; try (simpl; lia).
  exists pm', ws'. split; [exact Hrun |].
  destruct (Hcols 0%nat 0%nat 0%nat 0%nat sample_tesseroid 0 0 0 2 2 2)
    as (_ & _ & _ & Hrad & _); try reflexivity.
  exact Hrad.
Defined.

(** * Further properties *)

(** ** The sanity checks *)

Lemma Rleb_spec (x y : R) :
  (x <= y /\ Rleb x y = true) \/ (y < x /\ Rleb x y = false).
Proof. unfold Rleb. destruct (Rle_dec x y); [left | right]; split; auto; lra. Qed.

Lemma Rltb_spec (x y : R) :
  (x < y /\ Rltb x y = true) \/ (y <= x /\ Rltb x y = false).
Proof. unfold Rltb. destruct (Rlt_dec x y); [left | right]; split; auto; lra. Qed.

(** [_check_tesseroid] accepts every tesseroid with [w < e], [s < n] and
    [0 < bottom < top]; it raises exactly when one of the comparisons
    [w >= e], [s >= n], [bottom <= 0], [top <= 0], [bottom >= top] holds,
    and what it raises is a [ValueError]. *)
Theorem check_tesseroid_accepts (t : Tesseroid) :
  (well_formed t -> _check_tesseroid t = Ok tt)
  /\ (malformed t <-> exists e, _check_tesseroid t = Raise e)
  /\ (forall e, _check_tesseroid t = Raise e -> exists msg, e = ValueError msg).
Proof.
  destruct t as [w e s n b tp]. unfold well_formed, malformed, _check_tesseroid.
  cbn [west east south north bottom top].
  destruct (Rleb_spec e w) as [[H1 ->] | [H1 ->]];
    [split; [lra | split; [split; eauto | intros e' H; injection H as <-; eauto]] |].
  destruct (Rleb_spec n s) as [[H2 ->] | [H2 ->]];
    [split; [lra | split; [split; eauto | intros e' H; injection H as <-; eauto]] |].
  destruct (Rleb_spec b 0) as [[H3 ->] | [H3 ->]];
    [split; [lra | split; [split; eauto | intros e' H; injection H as <-; eauto]] |].
  destruct (Rleb_spec tp 0) as [[H4 ->] | [H4 ->]];
    [split; [lra | split; [split; eauto | intros e' H; injection H as <-; eauto]] |].
  destruct (Rleb_spec tp b) as [[H5 ->] | [H5 ->]];
    [split; [lra | split; [split; eauto 6 | intros e' H; injection H as <-; eauto]] |].
  cbn. split; [reflexivity |]. split; [| discriminate].
  split; [lra | intros [e' H]; discriminate H].
Qed.

(** [_check_point_outside_tesseroid] raises exactly when the point is
    strictly within the six bounds: a point on a face, an edge or a corner
    of the tesseroid is accepted. *)
Theorem check_point_rejects_interior (c : Coordinates) (t : Tesseroid) :
  (strictly_inside c t ->
   _check_point_outside_tesseroid c t
   = Raise (ValueError
       "Found computation point inside tesseroid. Computation points must be outside of tesseroids."))
  /\ (~ strictly_inside c t -> _check_point_outside_tesseroid c t = Ok tt).
Proof.
  destruct c as [lon lat r], t as [w e s n b tp].
  unfold strictly_inside, _check_point_outside_tesseroid.
  cbn [west east south north bottom top longitude latitude radius].
  destruct (Rltb_spec w lon) as [[H1 ->] | [H1 ->]],
    (Rltb_spec lon e) as [[H2 ->] | [H2 ->]],
    (Rltb_spec s lat) as [[H3 ->] | [H3 ->]],
    (Rltb_spec lat n) as [[H4 ->] | [H4 ->]],
    (Rltb_spec b r) as [[H5 ->] | [H5 ->]],
    (Rltb_spec r tp) as [[H6 ->] | [H6 ->]];
    cbn; split; try reflexivity; try (intros; lra);
    try (intros Hnot; exfalso; apply Hnot; lra).
Qed.

Lemma check_point_rejects_interior_witness :
  _check_point_outside_tesseroid (mkCoordinates 0 0 (3 / 2)) sample_tesseroid
  = Raise (ValueError
      "Found computation point inside tesseroid. Computation points must be outside of tesseroids.")
  /\ _check_point_outside_tesseroid (mkCoordinates 0 0 2) sample_tesseroid
     = Ok tt.
Proof.
  split.
  - apply (proj1 (check_point_rejects_interior (mkCoordinates 0 0 (3 / 2))
                    sample_tesseroid)).
    unfold strictly_inside; simpl; lra.
  - apply (proj2 (check_point_rejects_interior (mkCoordinates 0 0 2)
                    sample_tesseroid)).
    unfold strictly_inside; simpl; lra.
Defined.

(** ** What the returned values tell *)

Lemma loop_body_return_shape (c : Coordinates) (D : R) (radial : bool)
    (st st' : loop_state) (error : Z) :
  wf_state st -> (0 <= stack_top st)%Z ->
  loop_body c D radial st = Ok (Return st' error) ->
  length (stack st') = length (stack st)
  /\ length (small_tesseroids st') = length (small_tesseroids st)
  /\ ((error = (-2)%Z
       /\ n_splits st' = Z.of_nat (length (small_tesseroids st')))
      \/ (error = (-1)%Z
          /\ (Z.of_nat (length (stack st')) - (stack_top st' + 1) < 8)%Z
          /\ (radial = false ->
              (Z.of_nat (length (stack st')) - (stack_top st' + 1) < 4)%Z))).
Proof.
  intros Hwf H0 Hbody.
  destruct (loop_body_cases c D radial st Hwf H0) as (t & Ht & Hcases).
  destruct Hwf as [Hw1 Hw2].
  destruct (split_counts c t D radial) as [[[n_lon n_lat] n_rad] | e] eqn:Hsc;
    [| congruence].
  apply split_counts_range in Hsc as (Hlon & Hlat & Hrad & Hflat).
  cbv zeta in Hcases.
  destruct (1 <? _)%Z.
  - destruct (_ <? _)%Z eqn:Hroom.
    + rewrite Hcases in Hbody. injection Hbody as <- <-.
      cbn [stack small_tesseroids stack_top n_splits].
      apply Z.ltb_lt in Hroom.
      split; [reflexivity |]. split; [reflexivity |]. right.
      split; [reflexivity |]. split.
      * destruct Hlon as [-> | ->], Hlat as [-> | ->], Hrad as [-> | ->]; lia.
      * intros Hr. rewrite (Hflat Hr) in Hroom.
        destruct Hlon as [-> | ->], Hlat as [-> | ->]; lia.
    + destruct Hcases as (stk' & Hrun & _). congruence.
  - destruct (_ <? _)%Z eqn:Hroom; [| congruence].
    rewrite Hcases in Hbody. injection Hbody as <- <-.
    cbn [stack small_tesseroids stack_top n_splits].
    apply Z.ltb_lt in Hroom.
    split; [reflexivity |]. split; [reflexivity |]. left.
    split; [reflexivity | lia].
Qed.

Lemma while_loop_shape (c : Coordinates) (D : R) (radial : bool)
    (fuel : nat) :
  forall st st' error,
    wf_state st -> (0 <= stack_top st \/ 1 <= n_splits st)%Z ->
    while_loop fuel c D radial st = Some (Ok (st', error)) ->
    length (stack st') = length (stack st)
    /\ length (small_tesseroids st') = length (small_tesseroids st)
    /\ (0 <= n_splits st' <= Z.of_nat (length (small_tesseroids st')))%Z
    /\ (error = 0%Z -> stack_top st' = (-1)%Z /\ (1 <= n_splits st')%Z)
    /\ (error = (-2)%Z ->
        n_splits st' = Z.of_nat (length (small_tesseroids st')))
    /\ (error = (-1)%Z ->
        (Z.of_nat (length (stack st')) - (stack_top st' + 1) < 8)%Z
        /\ (radial = false ->
            (Z.of_nat (length (stack st')) - (stack_top st' + 1) < 4)%Z)).
Proof.
  induction fuel as [| fuel IH]; intros st st' error Hwf Hsome Hrun.
  - discriminate Hrun.
  - simpl in Hrun. destruct (0 <=? stack_top st)%Z eqn:Htop.
    + apply Z.leb_le in Htop.
      destruct (loop_body c D radial st) as [[st2 | st2 err2] | e] eqn:Hbody;
        [| | discriminate Hrun].
      * destruct (loop_body_progress c D radial st st2 Hwf Htop Hbody)
          as (Hwf2 & Hl1 & Hl2 & _ & Hcase).
        pose proof Hwf as [Hwa Hwb].
        destruct (IH st2 st' error Hwf2) as (H1 & H2 & H3); [lia | assumption |].
        split; [congruence |]. split; [congruence |]. exact H3.
      * injection Hrun as <- <-.
        pose proof (loop_body_returns c D radial st st2 err2 Hwf Htop Hbody)
          as (_ & Hn & Hs).
        destruct (loop_body_return_shape c D radial st st2 err2 Hwf Htop Hbody)
          as (Hl1 & Hl2 & Hshape).
        split; [assumption |]. split; [assumption |].
        split; [rewrite Hn, Hs; apply Hwf |].
        destruct Hshape as [[-> Hfull] | [-> Hnear]].
        -- split; [discriminate |]. split; [intros _; exact Hfull | discriminate].
        -- split; [discriminate |]. split; [discriminate | intros _; exact Hnear].
    + apply Z.leb_gt in Htop. injection Hrun as <- <-.
      split; [reflexivity |]. split; [reflexivity |]. split; [apply Hwf |].
      split; [| split; discriminate].
      intros _. destruct Hwf as [Hw _]. lia.
Qed.

(** What a returned discretization tells.  The arrays keep their
    lengths.  With the error 0 the stack is empty and at least one leaf
    has been recorded; the error -2 comes only with a full array of
    leaves; the error -1 comes only with fewer than 8 free rows on the
    stack, fewer than 4 without the radial discretization. *)
Theorem discretization_result_shape (fuel : nat) (c : Coordinates)
    (t : Tesseroid) (D : R) (stk small : list Tesseroid) (radial : bool)
    (st : loop_state) (error : Z) :
  _adaptive_discretization fuel c t D stk small radial
  = Some (Ok (st, error)) ->
  length (stack st) = length stk
  /\ length (small_tesseroids st) = length small
  /\ (0 <= n_splits st <= Z.of_nat (length small))%Z
  /\ (error = 0%Z -> stack_top st = (-1)%Z /\ (1 <= n_splits st)%Z)
  /\ (error = (-2)%Z -> n_splits st = Z.of_nat (length small))
  /\ (error = (-1)%Z ->
      (Z.of_nat (length stk) - (stack_top st + 1) < 8)%Z
      /\ (radial = false ->
          (Z.of_nat (length stk) - (stack_top st + 1) < 4)%Z)).
Proof.
  intros Hrun.
  pose proof (adaptive_discretization_returned _ _ _ _ _ _ _ _ _ Hrun) as Hlen.
  rewrite adaptive_discretization_start in Hrun by assumption.
  apply while_loop_shape in Hrun;
    [| apply start_wf; assumption | simpl; lia].
  cbn [stack small_tesseroids] in Hrun. rewrite length_insert in Hrun.
  destruct Hrun as (H1 & H2 & H3 & H4 & H5 & H6).
  rewrite H1 in H6. rewrite H2 in H3, H5.
  repeat (split; [assumption |]). assumption.
Qed.

Lemma discretization_result_shape_witness :
  exists st,
    _adaptive_discretization 2 sample_point_far sample_tesseroid 1
      [sample_tesseroid] [sample_tesseroid] false = Some (Ok (st, 0%Z))
    /\ stack_top st = (-1)%Z /\ (1 <= n_splits st)%Z.
Proof.
  eexists. split.
  - apply single_leaf_run; [simpl; lia | simpl; lia | apply sample_far_counts].
  - refine (proj1 (proj2 (proj2 (proj2
              (discretization_result_shape 2 sample_point_far sample_tesseroid
                 1 [sample_tesseroid] [sample_tesseroid] false _ 0%Z _))))
              eq_refl).
    apply single_leaf_run; [simpl; lia | simpl; lia | apply sample_far_counts].
Defined.

(** ** The entry point: validation, termination and value *)

Section GravityResults.

Variable kernel : Type.
Variable kernel_potential kernel_g_radial : kernel.
Variable jit_point_masses_gravity :
  Coordinates -> list R -> list R -> list R -> list R -> kernel -> R.
Variable GRAVITATIONAL_CONST : R.
Variable leggauss_rule : Z -> list R * list R.
Variable empty_rows : nat -> list Tesseroid.
Variable empty_floats : nat -> list R.
Hypothesis empty_rows_length : forall n, length (empty_rows n) = n.
Hypothesis empty_floats_length : forall n, length (empty_floats n) = n.
Hypothesis leggauss_rule_length :
  forall deg, (1 <= deg)%Z ->
    length (fst (leggauss_rule deg)) = Z.to_nat deg
    /\ length (snd (leggauss_rule deg)) = Z.to_nat deg.

Local Abbreviation gravity :=
  (tesseroid_gravity kernel kernel_potential kernel_g_radial
     jit_point_masses_gravity GRAVITATIONAL_CONST leggauss_rule
     empty_rows empty_floats).
Local Abbreviation kernels := (KERNELS kernel kernel_potential kernel_g_radial).

Lemma check_tesseroid_cases (t : Tesseroid) :
  (well_formed t /\ _check_tesseroid t = Ok tt)
  \/ (malformed t /\ exists msg, _check_tesseroid t = Raise (ValueError msg)).
Proof.
  destruct t as [w e s n b tp]. unfold well_formed, malformed, _check_tesseroid.
  cbn [west east south north bottom top].
  destruct (Rleb_spec e w) as [[H1 ->] | [H1 ->]];
    [right; split; [lra | eauto] |].
  destruct (Rleb_spec n s) as [[H2 ->] | [H2 ->]];
    [right; split; [lra | eauto] |].
  destruct (Rleb_spec b 0) as [[H3 ->] | [H3 ->]];
    [right; split; [lra | eauto] |].
  destruct (Rleb_spec tp 0) as [[H4 ->] | [H4 ->]];
    [right; split; [lra | eauto] |].
  destruct (Rleb_spec tp b) as [[H5 ->] | [H5 ->]];
    [right; split; [lra | eauto] |].
  left. split; [lra | reflexivity].
Qed.

Lemma check_tesseroid_malformed (t : Tesseroid) :
  malformed t -> exists msg, _check_tesseroid t = Raise (ValueError msg).
Proof.
  intros Hbad.
  destruct (check_tesseroid_cases t) as [[Hwf _] | [_ Hmsg]]; [| exact Hmsg].
  exfalso. unfold well_formed, malformed in *. lra.
Qed.

Lemma check_point_inside (c : Coordinates) (t : Tesseroid) :
  strictly_inside c t ->
  _check_point_outside_tesseroid c t
  = Raise (ValueError
      "Found computation point inside tesseroid. Computation points must be outside of tesseroids.").
Proof.
  destruct c as [lon lat r], t as [w e s n b tp].
  unfold strictly_inside, _check_point_outside_tesseroid.
  cbn [west east south north bottom top longitude latitude radius].
  intros ([H1 H2] & [H3 H4] & [H5 H6]).
  rewrite !Rltb_true by assumption. reflexivity.
Qed.

Lemma check_point_raises (c : Coordinates) (t : Tesseroid) (e : exn) :
  _check_point_outside_tesseroid c t = Raise e -> exists msg, e = ValueError msg.
Proof.
  destruct c as [lon lat r], t as [w e' s n b tp].
  unfold _check_point_outside_tesseroid.
  destruct (_ && _ && _); [| discriminate].
  intros H. injection H as <-. eauto.
Qed.

(** The call validates its input before it allocates or discretizes
    anything: whatever the capacities, the degrees and the number of
    iterations allowed, an unknown field is a [ValueError], a known field
    without a distance-size ratio is a [KeyError], a tesseroid on which
    one of the comparisons of [_check_tesseroid] holds ([w >= e],
    [s >= n], [bottom <= 0], [top <= 0], [bottom >= top]) is a
    [ValueError], and so is a point strictly inside a well formed
    tesseroid. *)
Theorem gravity_rejects_invalid_input (fuel : nat) (c : Coordinates)
    (t : Tesseroid) (density : R) (field : string)
    (ratii : list (string * R)) (degrees : Z * Z * Z)
    (stack_size max_discretizations : Z) (radial : bool) :
  (dict_get kernels field = None ->
   gravity fuel c t density field ratii degrees stack_size
     max_discretizations radial
   = Some (Raise (ValueError ("Gravity field " ++ field ++ " not recognized"))))
  /\ (dict_get kernels field <> None ->
      (dict_get ratii field = None ->
       gravity fuel c t density field ratii degrees stack_size
         max_discretizations radial
       = Some (Raise (KeyError field)))
      /\ (dict_get ratii field <> None ->
          (malformed t ->
           exists msg,
             gravity fuel c t density field ratii degrees stack_size
               max_discretizations radial
             = Some (Raise (ValueError msg)))
          /\ (well_formed t -> strictly_inside c t ->
              gravity fuel c t density field ratii degrees stack_size
                max_discretizations radial
              = Some (Raise (ValueError
                   "Found computation point inside tesseroid. Computation points must be outside of tesseroids."))))).
Proof.
  unfold tesseroid_gravity. split.
  - intros ->. reflexivity.
  - destruct (dict_get kernels field) as [k |]; [intros _ | congruence].
    unfold dict_getitem. split.
    + intros ->. reflexivity.
    + destruct (dict_get ratii field) as [D |]; [intros _ | congruence].
      cbn [mbind result_bind]. split.
      * intros Hbad. destruct (check_tesseroid_malformed t Hbad) as [msg Hmsg].
        exists msg. rewrite Hmsg. reflexivity.
      * intros Hwf Hin.
        destruct (check_tesseroid_cases t) as [[_ Hok] | [Hbad _]];
          [| exfalso; unfold well_formed, malformed in *; lra].
        rewrite Hok. cbn [mbind result_bind].
        rewrite (check_point_inside c t Hin). reflexivity.
Qed.

(** What follows a discretization that ended without error stays within
    the arrays it allocates. *)
Lemma gravity_of_leaves_in_range (c : Coordinates) (density : R)
    (field : string) (degrees : Z * Z * Z) (small : list Tesseroid) (n : Z)
    (k : kernel) :
  dict_get kernels field = Some k ->
  (0 <= n <= Z.of_nat (length small))%Z ->
  gravity_of_leaves kernel kernel_potential kernel_g_radial
    jit_point_masses_gravity GRAVITATIONAL_CONST leggauss_rule empty_floats
    c density field degrees small n
  <> Raise IndexError.
Proof.
  intros Hk Hn. destruct degrees as [[d1 d2] d3].
  unfold gravity_of_leaves, glq_nodes_weights, leggauss.
  destruct (d1 <? 1)%Z eqn:Hd1; [discriminate |].
  destruct (d2 <? 1)%Z eqn:Hd2;
    [destruct (leggauss_rule d1); discriminate |].
  destruct (d3 <? 1)%Z eqn:Hd3;
    [destruct (leggauss_rule d1), (leggauss_rule d2); discriminate |].
  apply Z.ltb_ge in Hd1, Hd2, Hd3.
  assert (Hleaves : length (take (Z.to_nat n) small) = Z.to_nat n)
    by (rewrite length_take; lia).
  destruct (leggauss_rule_length d1 Hd1) as [Hn1 Hw1].
  destruct (leggauss_rule_length d2 Hd2) as [Hn2 Hw2].
  destruct (leggauss_rule_length d3 Hd3) as [Hn3 Hw3].
  set (m := Z.to_nat (d1 * d2 * d3 * n)).
  destruct (converter_pusher (take (Z.to_nat n) small)
              (fst (leggauss_rule d1)) (fst (leggauss_rule d2))
              (fst (leggauss_rule d3))
              (snd (leggauss_rule d1)) (snd (leggauss_rule d2))
              (snd (leggauss_rule d3))
              ltac:(congruence) ltac:(congruence) ltac:(congruence)
              (mkMasses
                 (mkPointMasses (empty_floats m) (empty_floats m)
                    (empty_floats m))
                 (empty_floats m) 0))
    as (ms & Hconv & _).
  { simpl. lia. }
  { unfold masses_cap.
    cbn [mass_index ms_point_masses ms_weights pm_longitude pm_latitude
         pm_radius].
    rewrite !empty_floats_length, Hleaves, Hn1, Hn2, Hn3. unfold m. nia. }
  assert (Hout : tesseroids_to_point_masses (take (Z.to_nat n) small)
                   (fst (leggauss_rule d1), fst (leggauss_rule d2),
                    fst (leggauss_rule d3))
                   (snd (leggauss_rule d1), snd (leggauss_rule d2),
                    snd (leggauss_rule d3))
                   (mkPointMasses (empty_floats m) (empty_floats m)
                      (empty_floats m)) (empty_floats m)
                 = Ok (ms_point_masses ms, ms_weights ms)).
  { unfold tesseroids_to_point_masses. rewrite Hconv. reflexivity. }
  destruct (leggauss_rule d1) as [nodes1 weights1].
  destruct (leggauss_rule d2) as [nodes2 weights2].
  destruct (leggauss_rule d3) as [nodes3 weights3].
  cbn [fst snd] in Hout. cbn [mbind result_bind]. unfold np_empty.
  assert ((d1 * d2 * d3 * n <? 0)%Z = false) as -> by (apply Z.ltb_ge; nia).
  cbn [mbind result_bind]. fold m. rewrite Hout.
  cbn [mbind result_bind]. unfold dict_getitem. rewrite Hk.
  cbn [mbind result_bind].
  destruct (ms_point_masses ms) as [row0 row1 row2]. discriminate.
Qed.

(** With a stack of at least one row the call ends, with a value or
    with an exception, as soon as it is allowed
    [stack_size + 2 * max_discretizations] tests of the loop condition,
    and no index that it uses falls outside of its array: the exception is
    never an [IndexError]. *)
Theorem gravity_terminates (fuel : nat) (c : Coordinates) (t : Tesseroid)
    (density : R) (field : string) (ratii : list (string * R))
    (degrees : Z * Z * Z) (stack_size max_discretizations : Z)
    (radial : bool) :
  (1 <= stack_size)%Z ->
  (Z.to_nat stack_size + 2 * Z.to_nat max_discretizations <= fuel)%nat ->
  exists r,
    gravity fuel c t density field ratii degrees stack_size
      max_discretizations radial = Some r
    /\ r <> Raise IndexError.
Proof.
  intros Hstack Hfuel.
  destruct (dict_get kernels field) as [k |] eqn:Hk;
    [| unfold tesseroid_gravity; rewrite Hk; eexists;
       split; [reflexivity | discriminate]].
  destruct (dict_get ratii field) as [D |] eqn:HD;
    [| unfold tesseroid_gravity, dict_getitem; rewrite Hk, HD; eexists;
       split; [reflexivity | discriminate]].
  destruct (_check_tesseroid t) as [[] | e] eqn:Hct.
  2: { unfold tesseroid_gravity, dict_getitem. rewrite Hk, HD.
       cbn [mbind result_bind]. rewrite Hct. eexists.
       split; [reflexivity |].
       destruct (check_tesseroid_cases t) as [[_ Hok] | [_ [msg Hmsg]]];
         congruence. }
  destruct (_check_point_outside_tesseroid c t) as [[] | e] eqn:Hcp.
  2: { unfold tesseroid_gravity, dict_getitem. rewrite Hk, HD.
       cbn [mbind result_bind]. rewrite Hct. cbn [mbind result_bind].
       rewrite Hcp. eexists. split; [reflexivity |].
       destruct (check_point_raises c t e Hcp) as [msg ->]. discriminate. }
  destruct (Z_lt_ge_dec max_discretizations 0) as [Hneg | Hmd].
  { unfold tesseroid_gravity, dict_getitem. rewrite Hk, HD.
    cbn [mbind result_bind]. rewrite Hct. cbn [mbind result_bind].
    rewrite Hcp. cbn [mbind result_bind]. unfold np_empty_rows.
    assert ((stack_size <? 0)%Z = false) as -> by (apply Z.ltb_ge; lia).
    assert ((max_discretizations <? 0)%Z = true) as ->
      by (apply Z.ltb_lt; assumption).
    eexists. split; [reflexivity | discriminate]. }
  rewrite (gravity_valid kernel kernel_potential kernel_g_radial
             jit_point_masses_gravity GRAVITATIONAL_CONST leggauss_rule
             empty_rows empty_floats fuel c t density field ratii D
             degrees stack_size max_discretizations radial k)
    by (assumption || lia).
  rewrite adaptive_discretization_start by (rewrite empty_rows_length; lia).
  set (st0 := mkState (<[0%nat := t]> (empty_rows (Z.to_nat stack_size)))
                (empty_rows (Z.to_nat max_discretizations)) 0 0).
  assert (Hwf0 : wf_state st0)
    by (apply start_wf; rewrite empty_rows_length; lia).
  destruct (while_loop_terminates c D radial fuel st0 Hwf0)
    as (r & Hr & Hcases).
  { unfold measure, st0. cbn [stack small_tesseroids stack_top n_splits].
    rewrite length_insert, !empty_rows_length. lia. }
  rewrite Hr. unfold after_discretization.
  destruct Hcases as [-> | (st' & error & -> & Herr)];
    [eexists; split; [reflexivity | discriminate] |].
  apply while_loop_shape in Hr as (_ & _ & Hns & _);
    [| assumption | simpl; lia].
  destruct Herr as [-> | [-> | ->]].
  - change (0 =? -1)%Z with false. change (0 =? -2)%Z with false. cbv iota.
    eexists. split; [reflexivity |].
    apply (gravity_of_leaves_in_range c density field degrees
             (small_tesseroids st') (n_splits st') k Hk Hns).
  - eexists. split; [reflexivity | discriminate].
  - eexists. split; [reflexivity | discriminate].
Qed.

(** The value of the call.  On a valid input with degrees of at least 1,
    when the discretization ends without error the arrays allocated for
    the point masses are exactly filled by the converter (no index error),
    and the call returns the sum over the point masses, with the masses
    [density * weights], times the gravitational constant, and times
    [1e5] for the field [g_radial] only. *)
Theorem gravity_value (fuel : nat) (c : Coordinates) (t : Tesseroid)
    (density : R) (field : string) (ratii : list (string * R)) (D : R)
    (lon_degree lat_degree rad_degree : Z)
    (stack_size max_discretizations : Z) (radial : bool) (k : kernel)
    (st : loop_state) :
  dict_get kernels field = Some k ->
  dict_get ratii field = Some D ->
  _check_tesseroid t = Ok tt ->
  _check_point_outside_tesseroid c t = Ok tt ->
  (0 <= stack_size)%Z -> (0 <= max_discretizations)%Z ->
  (1 <= lon_degree)%Z -> (1 <= lat_degree)%Z -> (1 <= rad_degree)%Z ->
  _adaptive_discretization fuel c t D (empty_rows (Z.to_nat stack_size))
    (empty_rows (Z.to_nat max_discretizations)) radial
  = Some (Ok (st, 0%Z)) ->
  let glq_nodes :=
    (fst (leggauss_rule lon_degree), fst (leggauss_rule lat_degree),
     fst (leggauss_rule rad_degree)) in
  let glq_weights :=
    (snd (leggauss_rule lon_degree), snd (leggauss_rule lat_degree),
     snd (leggauss_rule rad_degree)) in
  let n :=
    Z.to_nat (lon_degree * lat_degree * rad_degree * n_splits st) in
  exists point_masses weights,
    tesseroids_to_point_masses (leaf_set st) glq_nodes glq_weights
      (mkPointMasses (empty_floats n) (empty_floats n) (empty_floats n))
      (empty_floats n)
    = Ok (point_masses, weights)
    /\ gravity fuel c t density field ratii
         (lon_degree, lat_degree, rad_degree) stack_size
         max_discretizations radial
       = Some (Ok
           (let result :=
              jit_point_masses_gravity c (pm_longitude point_masses)
                (pm_latitude point_masses) (pm_radius point_masses)
                (map (Rmult density) weights) k
              * GRAVITATIONAL_CONST in
            if String.eqb field "g_radial" then result * 100000
            else result)).
Proof.
  intros Hk HD Hct Hcp Hss Hmd Hd1 Hd2 Hd3 Hrun glq_nodes glq_weights n.
  (* the leaves *)
  pose proof (adaptive_discretization_returned _ _ _ _ _ _ _ _ _ Hrun) as Hlen.
  pose proof Hrun as Hshape.
  rewrite adaptive_discretization_start in Hshape by assumption.
  apply while_loop_shape in Hshape;
    [| apply start_wf; assumption | simpl; lia].
  destruct Hshape as (_ & _ & Hns & _).
  assert (Hleaves : length (leaf_set st) = Z.to_nat (n_splits st)).
  { unfold leaf_set. rewrite length_take. lia. }
  (* the rule *)
  destruct (leggauss_rule_length lon_degree Hd1) as [Hn1 Hw1].
  destruct (leggauss_rule_length lat_degree Hd2) as [Hn2 Hw2].
  destruct (leggauss_rule_length rad_degree Hd3) as [Hn3 Hw3].
  (* the converter *)
  destruct (converter_pusher (leaf_set st)
              (fst (leggauss_rule lon_degree)) (fst (leggauss_rule lat_degree))
              (fst (leggauss_rule rad_degree))
              (snd (leggauss_rule lon_degree)) (snd (leggauss_rule lat_degree))
              (snd (leggauss_rule rad_degree))
              ltac:(congruence) ltac:(congruence) ltac:(congruence)
              (mkMasses
                 (mkPointMasses (empty_floats n) (empty_floats n)
                    (empty_floats n))
                 (empty_floats n) 0))
    as (ms & Hconv & _).
  { simpl. lia. }
  { unfold masses_cap.
    cbn [mass_index ms_point_masses ms_weights pm_longitude pm_latitude
         pm_radius].
    rewrite !empty_floats_length, Hleaves, Hn1, Hn2, Hn3. unfold n. nia. }
  exists (ms_point_masses ms), (ms_weights ms).
  assert (Hout : tesseroids_to_point_masses (leaf_set st) glq_nodes glq_weights
                   (mkPointMasses (empty_floats n) (empty_floats n)
                      (empty_floats n)) (empty_floats n)
                 = Ok (ms_point_masses ms, ms_weights ms)).
  { unfold tesseroids_to_point_masses, glq_nodes, glq_weights.
    rewrite Hconv. reflexivity. }
  split; [exact Hout |].
  rewrite (gravity_valid kernel kernel_potential kernel_g_radial
             jit_point_masses_gravity GRAVITATIONAL_CONST leggauss_rule
             empty_rows empty_floats fuel c t density field ratii D
             (lon_degree, lat_degree, rad_degree) stack_size
             max_discretizations radial k) by assumption.
  rewrite Hrun. unfold after_discretization.
  change (0 =? -1)%Z with false. change (0 =? -2)%Z with false. cbv iota.
  unfold gravity_of_leaves, glq_nodes_weights, leggauss.
  assert ((lon_degree <? 1)%Z = false) as -> by (apply Z.ltb_ge; assumption).
  assert ((lat_degree <? 1)%Z = false) as -> by (apply Z.ltb_ge; assumption).
  assert ((rad_degree <? 1)%Z = false) as -> by (apply Z.ltb_ge; assumption).
  unfold glq_nodes, glq_weights in Hout.
  destruct (leggauss_rule lon_degree) as [nodes1 weights1].
  destruct (leggauss_rule lat_degree) as [nodes2 weights2].
  destruct (leggauss_rule rad_degree) as [nodes3 weights3].
  cbn [fst snd] in Hout. cbn [mbind result_bind]. unfold np_empty.
  assert ((lon_degree * lat_degree * rad_degree * n_splits st <? 0)%Z = false)
    as -> by (apply Z.ltb_ge; nia).
  cbn [mbind result_bind]. fold n. fold (leaf_set st). rewrite Hout.
  cbn [mbind result_bind]. unfold dict_getitem. rewrite Hk.
  cbn [mbind result_bind].
  destruct (ms_point_masses ms) as [row0 row1 row2]. reflexivity.
Qed.

End GravityResults.

Lemma centre_rule_length (deg : Z) :
  (1 <= deg)%Z ->
  length (fst (centre_rule deg)) = Z.to_nat deg
  /\ length (snd (centre_rule deg)) = Z.to_nat deg.
Proof. intros _. unfold centre_rule. simpl. rewrite !length_replicate. auto. Qed.

Lemma gravity_terminates_witness :
  exists r,
    tesseroid_gravity unit tt tt (fun _ _ _ _ _ _ => 1) 2 centre_rule
      (fun n => replicate n sample_tesseroid) (fun n => replicate n 0)
      3 sample_point_above sample_tesseroid 2670 "g_radial"
      DISTANCE_SIZE_RATII GLQ_DEGREES 1 1 true
    = Some r
    /\ r <> Raise IndexError.
Proof.
  apply (gravity_terminates unit tt tt (fun _ _ _ _ _ _ => 1) 2 centre_rule
           (fun n => replicate n sample_tesseroid) (fun n => replicate n 0)
           (fun n => length_replicate n _) (fun n => length_replicate n _)
           centre_rule_length);
    [lia | simpl; lia].
Defined.

Lemma gravity_value_witness :
  exists v,
    tesseroid_gravity unit tt tt (fun _ _ _ _ _ _ => 1) 2 centre_rule
      (fun n => replicate n sample_tesseroid) (fun n => replicate n 0)
      2 sample_point_far sample_tesseroid 2670 "g_radial"
      DISTANCE_SIZE_RATII (1, 1, 1)%Z 1 1 false
    = Some (Ok v).
Proof.
  destruct (gravity_value unit tt tt (fun _ _ _ _ _ _ => 1) 2 centre_rule
              (fun n => replicate n sample_tesseroid)
              (fun n => replicate n 0)
              (fun n => length_replicate n _) centre_rule_length
              2%nat sample_point_far sample_tesseroid 2670 "g_radial"%string
              DISTANCE_SIZE_RATII 2.5 1%Z 1%Z 1%Z 1%Z 1%Z false tt
              (mkState (<[0%nat := sample_tesseroid]> [sample_tesseroid])
                 (<[0%nat := sample_tesseroid]> [sample_tesseroid]) (-1) 1))
    as (pm & ws & _ & Hvalue);
    try reflexivity; try lia.
  - apply check_tesseroid_ok; simpl; lra.
  - apply check_point_above_ok; simpl; lra.
  - apply (single_leaf_run sample_point_far sample_tesseroid 2.5
             [sample_tesseroid] [sample_tesseroid] false 0);
      [simpl; lia | simpl; lia |].
    apply split_counts_satisfied; [lra | simpl; lra |].
    pose proof PI_bounds as Hpi.
    unfold sample_tesseroid, sample_point_far.
    rewrite dimensions_two_degrees.
    replace (mkTesseroid (-1) 1 (-1) 1 1 2)
      with (mkTesseroid (- (1)) 1 (- (1)) 1 1 2) by reflexivity.
    rewrite distance_on_axis by lra.
    assert (Harc : 2.5 <= (100 - (1 + 2) / 2) / (2 * (PI / 90))).
    { apply Rmult_le_reg_r with (2 * (PI / 90)); [lra |].
      replace ((100 - (1 + 2) / 2) / (2 * (PI / 90)) * (2 * (PI / 90)))
        with (100 - (1 + 2) / 2) by (field; lra).
      lra. }
    split; [assumption |]. split; [assumption |]. discriminate.
  - eexists. exact Hvalue.
Defined.

(** ** The role of the ratio *)

(** A greater distance-size ratio never splits less, and neither does
    turning the radial discretization on: each split count can only
    grow. *)
Theorem split_counts_monotone (c : Coordinates) (t : Tesseroid)
    (D1 D2 : R) (radial1 radial2 : bool)
    (n_lon1 n_lat1 n_rad1 : Z) :
  D1 <= D2 -> (radial1 = true -> radial2 = true) ->
  split_counts c t D1 radial1 = Ok (n_lon1, n_lat1, n_rad1) ->
  exists n_lon2 n_lat2 n_rad2,
    split_counts c t D2 radial2 = Ok (n_lon2, n_lat2, n_rad2)
    /\ (n_lon1 <= n_lon2)%Z /\ (n_lat1 <= n_lat2)%Z /\ (n_rad1 <= n_rad2)%Z.
Proof.
  intros HD Hradial. unfold split_counts.
  destruct (_tesseroid_dimensions t) as [[l_lon l_lat] l_rad].
  destruct (fdiv _ l_lon) as [r_lon |]; [| discriminate].
  destruct (fdiv _ l_lat) as [r_lat |]; [| discriminate].
  destruct (fdiv _ l_rad) as [r_rad |]; [| discriminate].
  cbn [mbind result_bind]. intros H. injection H as <- <- <-.
  eexists _, _, _. split; [reflexivity |].
  assert (Hmono : forall r, Rltb r D1 = true -> Rltb r D2 = true).
  { intros r. unfold Rltb.
    destruct (Rlt_dec r D1), (Rlt_dec r D2); try reflexivity; try discriminate.
    lra. }
  split; [| split].
  - destruct (Rltb r_lon D1) eqn:E; [rewrite (Hmono _ E); lia |].
    destruct (Rltb r_lon D2); lia.
  - destruct (Rltb r_lat D1) eqn:E; [rewrite (Hmono _ E); lia |].
    destruct (Rltb r_lat D2); lia.
  - destruct (Rltb r_rad D1) eqn:E.
    + rewrite (Hmono _ E). destruct radial1.
      * rewrite (Hradial eq_refl). simpl. lia.
      * simpl. destruct radial2; simpl; lia.
    + simpl. destruct (Rltb r_rad D2 && radial2); lia.
Qed.

Lemma split_counts_monotone_witness :
  exists n_lon2 n_lat2 n_rad2,
    split_counts sample_point_above sample_tesseroid 2 true
    = Ok (n_lon2, n_lat2, n_rad2)
    /\ (1 <= n_lon2)%Z /\ (1 <= n_lat2)%Z /\ (1 <= n_rad2)%Z.
Proof.
  apply (split_counts_monotone sample_point_above sample_tesseroid 1 2
           false true 1 1 1); [lra | discriminate |].
  unfold sample_point_above, sample_tesseroid.
  rewrite split_counts_on_axis by lra. rewrite andb_false_r. reflexivity.
Defined.
